(** * ndarray_listener: a NumPy array subclass that notifies listeners

    A shallow embedding of [ndarray_listener/ndarray_listener.py].

    The class mutates shared Python objects: several array objects may hold
    the very same list of listeners, and several array objects may be views
    of the very same data buffer.  The embedding therefore works on an
    explicit store with three heaps (data buffers, list objects, array
    objects) and a trace of listener invocations, threaded through a small
    state-and-exception monad.

    The methods of the class are translated one by one.  The base-class
    operations they delegate to ([asarray], [ndarray.view], [ndarray.copy],
    [ndarray.__getitem__], [ndarray.__setitem__], [ndarray.itemset],
    [object.__setattr__]) belong to NumPy and Python; the fragment of them
    that the class relies on is modelled, as Python 3 and NumPy 1 behave,
    for arrays of integers (NumPy's 64-bit integer element type) of
    dimension zero and one, with integer, slice (step one), ellipsis and
    empty-tuple indices.  Where the fragment ends inside an operation (an
    assignment to an attribute that NumPy or the class defines on the type,
    such as [shape] or [real]), the operation has the outcome [Unmodelled]:
    no statement is made about it. *)

From stdpp Require Import base option list gmap strings.
From Stdlib Require Import ZArith Lia Ascii.

(** ** Python values and the store *)

Definition loc := nat.

(** What happens when a registered object is called with one argument.
    Any Python object can be passed to [talk_to]: a callable that returns,
    a callable that raises, or an object that is not callable at all.  What
    a listener does besides returning or raising is external to the class
    and is recorded as an event of the trace. *)
Inductive callkind := Returns | Raises | NotCallable.

Record pyobject := PyObject { ob_id : nat; ob_call : callkind }.

#[global] Instance callkind_eq_dec : EqDecision callkind.
Proof. solve_decision. Defined.

#[global] Instance pyobject_eq_dec : EqDecision pyobject.
Proof. solve_decision. Defined.

(** Number of dimensions of the modelled arrays. *)
Inductive ndim := D0 | D1.

#[global] Instance ndim_eq_dec : EqDecision ndim.
Proof. solve_decision. Defined.

(** The contents of an array as a value: its dimension and its elements
    (exactly one element when the dimension is zero).  The class never
    looks at the elements; the modelled arrays hold integers, and [int64]
    below gives the numbers a write can store. *)
Record ndvalue := NdValue { nd_dim : ndim; nd_elems : list Z }.

#[global] Instance ndvalue_eq_dec : EqDecision ndvalue.
Proof. solve_decision. Defined.

(** One invocation [l(arg)] of a registered object. *)
Inductive event := Called (l : pyobject) (arg : ndvalue).

#[global] Instance event_eq_dec : EqDecision event.
Proof. solve_decision. Defined.

(** Values an instance attribute can hold. *)
Inductive pyval :=
| PNone
| PNum (z : Z)
| PList (l : loc).

Inductive klass := Ndarray | NdarrayListener.

#[global] Instance klass_eq_dec : EqDecision klass.
Proof. solve_decision. Defined.

(** An array object: its class, the buffer it looks into, the window of the
    buffer it covers, its dimension and its instance dictionary. *)
Record arr := Arr {
  a_cls : klass;
  a_buf : loc;
  a_off : nat;
  a_len : nat;
  a_nd : ndim;
  a_dict : gmap string pyval
}.

Record state := State {
  bufs : list (list Z);
  lsts : list (list pyobject);
  objs : list arr;
  trace : list event
}.

Definition empty_state : state := State [] [] [] [].

Inductive exn :=
| IndexError
| ValueError
| TypeError
| AttributeError
| OverflowError
| ListenerError (l : pyobject)
| BadRef.

(** How a computation ends: with a result, with an exception, or at an
    operation outside the modelled fragment. *)
Inductive outcome (A : Type) :=
| Ok (x : A)
| Raise (e : exn)
| Unmodelled.
Arguments Ok {A} x.
Arguments Raise {A} e.
Arguments Unmodelled {A}.

(** The outcomes the model speaks for. *)
Definition modelled {A} (r : outcome A) : Prop :=
  match r with Unmodelled => False | _ => True end.

(** ** The state-and-exception monad *)

Definition M (A : Type) : Type := state -> outcome A * state.

Definition ret {A} (x : A) : M A := fun s => (Ok x, s).

Definition raise {A} (e : exn) : M A := fun s => (Raise e, s).

Definition unmodelled {A} : M A := fun s => (Unmodelled, s).

Definition bind {A B} (m : M A) (k : A -> M B) : M B :=
  fun s =>
    match m s with
    | (Ok x, s') => k x s'
    | (Raise e, s') => (Raise e, s')
    | (Unmodelled, s') => (Unmodelled, s')
    end.

Notation "'let*' x ':=' m 'in' k" := (bind m (fun x => k))
  (at level 10, x name, m at level 100, k at level 200).

Notation "m1 ';;' m2" := (bind m1 (fun _ => m2))
  (at level 100, m2 at level 200, right associativity).

(** [for x in xs: body(x)] over the elements the list has when the loop
    starts. *)
Fixpoint for_each {A} (xs : list A) (body : A -> M unit) : M unit :=
  match xs with
  | [] => ret tt
  | x :: xs' => body x ;; for_each xs' body
  end.

(** *** Heap primitives *)

Definition deref_obj (o : loc) : M arr :=
  fun s =>
    match objs s !! o with
    | Some a => (Ok a, s)
    | None => (Raise BadRef, s)
    end.

Definition store_obj (o : loc) (a : arr) : M unit :=
  fun s => (Ok tt, State (bufs s) (lsts s) (<[o := a]> (objs s)) (trace s)).

Definition new_obj (a : arr) : M loc :=
  fun s => (Ok (length (objs s)),
            State (bufs s) (lsts s) (objs s ++ [a]) (trace s)).

Definition deref_buf (b : loc) : M (list Z) :=
  fun s =>
    match bufs s !! b with
    | Some d => (Ok d, s)
    | None => (Raise BadRef, s)
    end.

Definition store_buf (b : loc) (d : list Z) : M unit :=
  fun s => (Ok tt, State (<[b := d]> (bufs s)) (lsts s) (objs s) (trace s)).

Definition new_buf (d : list Z) : M loc :=
  fun s => (Ok (length (bufs s)),
            State (bufs s ++ [d]) (lsts s) (objs s) (trace s)).

Definition deref_list (l : loc) : M (list pyobject) :=
  fun s =>
    match lsts s !! l with
    | Some ls => (Ok ls, s)
    | None => (Raise BadRef, s)
    end.

Definition store_list (l : loc) (ls : list pyobject) : M unit :=
  fun s => (Ok tt, State (bufs s) (<[l := ls]> (lsts s)) (objs s) (trace s)).

(** The list display [[]]: a new, empty list object. *)
Definition new_list : M loc :=
  fun s => (Ok (length (lsts s)),
            State (bufs s) (lsts s ++ [[]]) (objs s) (trace s)).

Definition emit (e : event) : M unit :=
  fun s => (Ok tt, State (bufs s) (lsts s) (objs s) (trace s ++ [e])).

(** ** The NumPy fragment, part one *)

(** The elements an array object sees in its buffer. *)
Definition window (a : arr) (d : list Z) : list Z :=
  take (a_len a) (drop (a_off a) d).

Definition set_cls (c : klass) (a : arr) : arr :=
  Arr c (a_buf a) (a_off a) (a_len a) (a_nd a) (a_dict a).

Definition set_dict (m : gmap string pyval) (a : arr) : arr :=
  Arr (a_cls a) (a_buf a) (a_off a) (a_len a) (a_nd a) m.

(** What [ndarray_listener(...)] is applied to: a Python or NumPy scalar, a
    sequence of numbers, or an array object. *)
Inductive input :=
| InScalar (z : Z)
| InSeq (xs : list Z)
| InArr (o : loc).

(** [numpy.asarray]: a scalar or a sequence is converted into a new
    base-class array with its own buffer; a base-class array is returned as
    it is; an instance of a subclass yields a base-class view of the same
    buffer. *)
Definition asarray (x : input) : M loc :=
  match x with
  | InScalar z =>
      let* b := new_buf [z] in
      new_obj (Arr Ndarray b 0 1 D0 ∅)
  | InSeq xs =>
      let* b := new_buf xs in
      new_obj (Arr Ndarray b 0 (length xs) D1 ∅)
  | InArr o =>
      let* a := deref_obj o in
      match a_cls a with
      | Ndarray => ret o
      | NdarrayListener => new_obj (set_dict ∅ (set_cls Ndarray a))
      end
  end.

(** The contents of an array object, read off the store. *)
Definition read_value (o : loc) : M ndvalue :=
  let* a := deref_obj o in
  let* d := deref_buf (a_buf a) in
  ret (NdValue (a_nd a) (window a d)).

(** Attributes of [ndarray] that have no setter. *)
Definition readonly_attrs : list string :=
  ["ndim"; "size"; "itemsize"; "nbytes"; "base"; "flags"; "T"; "ctypes"]%string.

(** A name with one leading underscore.  Neither NumPy nor the class
    defines an attribute of such a name on the type, except the name under
    which Python stores the method [__notify] of the class. *)
Definition private_name (name : string) : bool :=
  match name with
  | String c rest =>
      bool_decide (c = "_"%char) &&
      match rest with
      | String c' _ => negb (bool_decide (c' = "_"%char))
      | EmptyString => true
      end &&
      negb (bool_decide (name = "_ndarray_listener__notify"%string))
  | EmptyString => false
  end.

(** What an assignment to an attribute name meets: nothing on the type, so
    that the value goes to the instance; an attribute of [ndarray] without
    a setter; or another attribute of the type (a writable descriptor of
    [ndarray] such as [shape] or [real], a method, a special name), whose
    assignment is outside the modelled fragment.  Which public names the
    type defines depends on the version of NumPy, so that every name that
    is not private counts as one of the type. *)
Inductive attr_kind := InstanceAttr | ReadOnlyAttr | TypeAttr.

Definition attr_kind_of (name : string) : attr_kind :=
  if decide (name ∈ readonly_attrs) then ReadOnlyAttr
  else if private_name name then InstanceAttr
  else TypeAttr.

(** The inherited [__setattr__].  An attribute without a setter raises.  A
    name that the type does not define is stored in the instance
    dictionary; a base-class array has no instance dictionary, so that the
    assignment raises. *)
Definition ndarray_setattr (self : loc) (name : string) (v : pyval) : M unit :=
  let* a := deref_obj self in
  match attr_kind_of name with
  | ReadOnlyAttr => raise AttributeError
  | TypeAttr => unmodelled
  | InstanceAttr =>
      match a_cls a with
      | Ndarray => raise AttributeError
      | NdarrayListener =>
          store_obj self (set_dict (<[name := v]> (a_dict a)) a)
      end
  end.

(** [o.name]: the attribute must exist. *)
Definition getattr (o : loc) (name : string) : M pyval :=
  let* a := deref_obj o in
  match a_dict a !! name with
  | Some v => ret v
  | None => raise AttributeError
  end.

(** [getattr(o, name, default)]. *)
Definition getattr_default (o : loc) (name : string) (dflt : pyval) : M pyval :=
  let* a := deref_obj o in
  ret (default dflt (a_dict a !! name)).

(** [hasattr(x, name)] for what the constructor is applied to: scalars and
    sequences have no attribute of that name. *)
Definition hasattr (x : input) (name : string) : M bool :=
  match x with
  | InArr o =>
      let* a := deref_obj o in
      ret (bool_decide (is_Some (a_dict a !! name)))
  | _ => ret false
  end.

(** ** The class, part one: notification and attribute writes *)

(** Calling a registered object. *)
Definition call (l : pyobject) (arg : ndvalue) : M unit :=
  match ob_call l with
  | Returns => emit (Called l arg)
  | Raises => emit (Called l arg) ;; raise (ListenerError l)
  | NotCallable => raise TypeError
  end.

(** Iterating over [self._listeners]: the attribute must exist and hold a
    list. *)
Definition iter_listeners (self : loc) : M (list pyobject) :=
  let* v := getattr self "_listeners" in
  match v with
  | PList l => deref_list l
  | _ => raise TypeError
  end.

(** <<
    def __notify(self):
        for l in self._listeners:
            l(asarray(self))
    >> *)
Definition __notify (self : loc) : M unit :=
  let* ls := iter_listeners self in
  for_each ls (fun l =>
    let* snap := asarray (InArr self) in
    let* v := read_value snap in
    call l v).

(** <<
    def __setattr__(self, *args, **kwargs):
        super(ndarray_listener, self).__setattr__( *args, **kwargs)
        if len(args) > 0 and args[0] == '_listeners':
            return
        self.__notify()
    >>
    An attribute assignment [self.name = v] calls it with the two
    positional arguments [name] and [v]. *)
Definition __setattr__ (self : loc) (name : string) (v : pyval) : M unit :=
  ndarray_setattr self name v ;;
  if decide (name = "_listeners") then ret tt
  else __notify self.

(** <<
    def __array_finalize__(self, obj):
        if obj is None:
            return
        self._listeners = getattr(obj, '_listeners', [])
    >>
    The default [[]] is evaluated before [getattr] is called. *)
Definition __array_finalize__ (self : loc) (obj : option loc) : M unit :=
  match obj with
  | None => ret tt
  | Some o =>
      let* fresh := new_list in
      let* v := getattr_default o "_listeners" (PList fresh) in
      __setattr__ self "_listeners" v
  end.

(** ** The NumPy fragment, part two: derived arrays, reads and writes *)

(** NumPy creates every new array object that is derived from an existing
    one through the same path: the object is allocated with an empty
    instance dictionary and, when its class is the subclass, the hook
    [__array_finalize__] is called on it with the source object. *)
Definition derive (src : loc) (c : klass) (b : loc) (off len : nat) (nd : ndim)
  : M loc :=
  let* o := new_obj (Arr c b off len nd ∅) in
  match c with
  | Ndarray => ret tt
  | NdarrayListener => __array_finalize__ o (Some src)
  end ;;
  ret o.

(** [a.view(cls)]: a new object of class [cls] on the same window. *)
Definition ndarray_view (self : loc) (c : klass) : M loc :=
  let* a := deref_obj self in
  derive self c (a_buf a) (a_off a) (a_len a) (a_nd a).

(** [a.copy()]: a new object of the class of [a] on a new buffer that
    holds a copy of the elements of [a]. *)
Definition ndarray_copy (self : loc) : M loc :=
  let* a := deref_obj self in
  let* d := deref_buf (a_buf a) in
  let* b := new_buf (window a d) in
  derive self (a_cls a) b 0 (a_len a) (a_nd a).

Inductive index :=
| IInt (i : Z)
| ISlice (lo hi : option Z)
| IEllipsis
| IEmptyTuple.

(** An integer index into [n] elements: a negative index counts from the
    end; an index outside [-n .. n-1] is an error. *)
Definition adjust_index (i : Z) (n : nat) : option nat :=
  let j := if (i <? 0)%Z then (i + Z.of_nat n)%Z else i in
  if bool_decide (0 ≤ j < Z.of_nat n)%Z then Some (Z.to_nat j) else None.

(** A bound of a slice over [n] elements: a negative bound counts from the
    end, and the result is clipped to [0 .. n]. *)
Definition clip_bound (i : Z) (n : nat) : nat :=
  let j := if (i <? 0)%Z then (i + Z.of_nat n)%Z else i in
  Z.to_nat (Z.min (Z.max 0 j) (Z.of_nat n)).

(** Start and length of the slice [lo:hi] over [n] elements. *)
Definition slice_bounds (lo hi : option Z) (n : nat) : nat * nat :=
  let start := from_option (fun i => clip_bound i n) 0 lo in
  let stop := from_option (fun i => clip_bound i n) n hi in
  (start, stop - start).

(** The part of the window an index addresses, as a start and a length
    relative to the window; [None] when the index is out of range or has
    too many dimensions for the array. *)
Definition target (a : arr) (idx : index) : option (nat * nat) :=
  match idx, a_nd a with
  | IEllipsis, _ | IEmptyTuple, _ => Some (0, a_len a)
  | IInt i, D1 => k ← adjust_index i (a_len a); Some (k, 1)
  | ISlice lo hi, D1 => Some (slice_bounds lo hi (a_len a))
  | IInt _, D0 | ISlice _ _, D0 => None
  end.

(** What a read returns: a bare scalar, or an array object. *)
Inductive item :=
| ItemScalar (z : Z)
| ItemArr (o : loc).

(** The inherited [__getitem__].  An integer index into a one-dimensional
    array and the empty tuple on a zero-dimensional array give a bare
    scalar; every other accepted index gives a view of the class of the
    array. *)
Definition ndarray_getitem (self : loc) (idx : index) : M item :=
  let* a := deref_obj self in
  match target a idx with
  | None => raise IndexError
  | Some (start, n) =>
      match idx, a_nd a with
      | IInt _, _ | IEmptyTuple, D0 =>
          let* d := deref_buf (a_buf a) in
          match d !! (a_off a + start) with
          | Some z => ret (ItemScalar z)
          | None => raise BadRef
          end
      | _, _ =>
          let* v := derive self (a_cls a) (a_buf a) (a_off a + start) n (a_nd a) in
          ret (ItemArr v)
      end
  end.

(** The right-hand side of an assignment: a scalar or a sequence. *)
Inductive rhs :=
| RScalar (z : Z)
| RSeq (xs : list Z).

(** The numbers an element of the arrays can hold: 64-bit integers. *)
Definition int64 (z : Z) : Prop := (- 2 ^ 63 ≤ z < 2 ^ 63)%Z.

#[global] Instance int64_dec z : Decision (int64 z).
Proof. unfold int64. apply _. Defined.

(** Whether an index addresses one element as a scalar: an integer index,
    and every index into a zero-dimensional array. *)
Definition scalar_target (a : arr) (idx : index) : bool :=
  match idx, a_nd a with
  | IInt _, _ => true
  | _, D0 => true
  | _, D1 => false
  end.

(** The conversion of a right-hand side: the values to write, or the
    exception of the refusal. *)
Inductive conversion :=
| Values (vs : list Z)
| Refused (e : exn).

(** The values written into a target of [n] elements.  A number that the
    elements cannot hold is an overflow error.  A scalar is repeated.  A
    sequence is refused by a target that is one scalar element; for a
    target of [n] elements a sequence of one element is repeated and any
    other sequence must have exactly [n] elements. *)
Definition broadcast (single : bool) (r : rhs) (n : nat) : conversion :=
  match r with
  | RScalar z =>
      if decide (int64 z) then Values (replicate n z)
      else Refused OverflowError
  | RSeq xs =>
      if single then Refused ValueError
      else if decide (Forall int64 xs) then
        match xs with
        | [z] => Values (replicate n z)
        | _ => if decide (length xs = n) then Values xs
               else Refused ValueError
        end
      else Refused OverflowError
  end.

(** Overwriting the elements of [d] from position [p] on by [vs]. *)
Definition splice (p : nat) (vs d : list Z) : list Z :=
  take p d ++ vs ++ drop (p + length vs) d.

(** The inherited [__setitem__]: an index error when the index is not
    accepted, the exception of the conversion when the right-hand side is
    refused, else the addressed part of the buffer is overwritten. *)
Definition ndarray_setitem (self : loc) (idx : index) (r : rhs) : M unit :=
  let* a := deref_obj self in
  match target a idx with
  | None => raise IndexError
  | Some (start, n) =>
      match broadcast (scalar_target a idx) r n with
      | Refused e => raise e
      | Values vs =>
          let* d := deref_buf (a_buf a) in
          store_buf (a_buf a) (splice (a_off a + start) vs d)
      end
  end.

(** The arguments of [itemset]: the value alone, or a position and the
    value. *)
Inductive itemset_args :=
| ItemsetValue (v : Z)
| ItemsetAt (i : Z) (v : Z).

(** The inherited [itemset]: without a position the array must have exactly
    one element; with a position the position must be in range; then the
    value must be a number the elements can hold. *)
Definition ndarray_itemset (self : loc) (args : itemset_args) : M unit :=
  let* a := deref_obj self in
  match args with
  | ItemsetValue v =>
      if decide (a_len a = 1) then
        if decide (int64 v) then
          let* d := deref_buf (a_buf a) in
          store_buf (a_buf a) (splice (a_off a) [v] d)
        else raise OverflowError
      else raise ValueError
  | ItemsetAt i v =>
      match adjust_index i (a_len a) with
      | None => raise IndexError
      | Some k =>
          if decide (int64 v) then
            let* d := deref_buf (a_buf a) in
            store_buf (a_buf a) (splice (a_off a + k) [v] d)
          else raise OverflowError
      end
  end.

(** [super().__setslice__]: in Python 3 neither [ndarray] nor [object] has
    a method of this name (a slice assignment is [__setitem__] with a slice
    as index), so that the attribute lookup raises. *)
Definition ndarray_setslice (self : loc) (i j : Z) (r : rhs) : M unit :=
  raise AttributeError.

(** ** The class, part two *)

(** [x._listeners] for what the constructor is applied to. *)
Definition getattr_input (x : input) (name : string) : M pyval :=
  match x with
  | InArr o => getattr o name
  | _ => raise AttributeError
  end.

(** <<
    def __new__(cls, input_array):
        obj = asarray(input_array).view(cls)

        if hasattr(input_array, '_listeners'):
            obj._listeners = input_array._listeners
        else:
            obj._listeners = []

        return obj
    >> *)
Definition __new__ (input_array : input) : M loc :=
  let* base := asarray input_array in
  let* obj := ndarray_view base NdarrayListener in
  let* h := hasattr input_array "_listeners" in
  (if h : bool then
     let* v := getattr_input input_array "_listeners" in
     __setattr__ obj "_listeners" v
   else
     let* l := new_list in
     __setattr__ obj "_listeners" (PList l)) ;;
  ret obj.

(** <<
    def __setslice__(self, *args, **kwargs):
        super(ndarray_listener, self).__setslice__( *args, **kwargs)
        self.__notify()
    >>
    Python 3 never calls it for [self[i:j] = r]; it runs only when it is
    called by name. *)
Definition __setslice__ (self : loc) (i j : Z) (r : rhs) : M unit :=
  ndarray_setslice self i j r ;;
  __notify self.

(** <<
    def __setitem__(self, *args, **kwargs):
        super(ndarray_listener, self).__setitem__( *args, **kwargs)
        self.__notify()
    >> *)
Definition __setitem__ (self : loc) (idx : index) (r : rhs) : M unit :=
  ndarray_setitem self idx r ;;
  __notify self.

(** [lst.append(x)] on an attribute value: only a list has the method. *)
Definition append (v : pyval) (x : pyobject) : M unit :=
  match v with
  | PList l =>
      let* ls := deref_list l in
      store_list l (ls ++ [x])
  | _ => raise AttributeError
  end.

(** <<
    def talk_to(self, me):
        self._listeners.append(me)
    >> *)
Definition talk_to (self : loc) (me : pyobject) : M unit :=
  let* v := getattr self "_listeners" in
  append v me.

(** [isinstance(v, ndarray_listener)]. *)
Definition isinstance_listener (v : item) : M bool :=
  match v with
  | ItemScalar _ => ret false
  | ItemArr o =>
      let* a := deref_obj o in
      ret (bool_decide (a_cls a = NdarrayListener))
  end.

Definition item_input (v : item) : input :=
  match v with
  | ItemScalar z => InScalar z
  | ItemArr o => InArr o
  end.

(** <<
    def __getitem__(self, *args, **kwargs):
        v = super(ndarray_listener, self).__getitem__( *args, **kwargs)
        if isinstance(v, ndarray_listener):
            return v

        v = ndarray_listener(v)
        for l in self._listeners:
            v.talk_to(l)
        return v
    >>
    The list of the new object is not the list of [self] (the constructor
    is applied to a value without [_listeners]), so the loop runs over the
    elements [self._listeners] has when it starts. *)
Definition __getitem__ (self : loc) (idx : index) : M loc :=
  let* v := ndarray_getitem self idx in
  let* inst := isinstance_listener v in
  match v, inst with
  | ItemArr o, true => ret o
  | _, _ =>
      let* w := __new__ (item_input v) in
      let* ls := iter_listeners self in
      for_each ls (fun l => talk_to w l) ;;
      ret w
  end.

(** <<
    def itemset(self, *args, **kwargs):
        super(ndarray_listener, self).itemset( *args, **kwargs)
        self.__notify()
    >> *)
Definition itemset (self : loc) (args : itemset_args) : M unit :=
  ndarray_itemset self args ;;
  __notify self.

(** [a.copy()] is inherited from [ndarray]. *)
Definition copy (self : loc) : M loc := ndarray_copy self.

(** ** Observations on a store *)

(** The list object an array holds in [_listeners]. *)
Definition listeners_ref (s : state) (o : loc) : option loc :=
  a ← objs s !! o;
  v ← a_dict a !! "_listeners";
  match v with
  | PList l => Some l
  | _ => None
  end.

(** The registered objects an array would notify. *)
Definition listeners_of (s : state) (o : loc) : option (list pyobject) :=
  l ← listeners_ref s o; lsts s !! l.

(** The contents of an array. *)
Definition value_at (s : state) (o : loc) : option ndvalue :=
  a ← objs s !! o;
  d ← bufs s !! a_buf a;
  Some (NdValue (a_nd a) (window a d)).

(** The arguments a registered object was called with, in order. *)
Definition calls_of (l : pyobject) (tr : list event) : list ndvalue :=
  omap (fun e => match e with
                 | Called l' v => if decide (l' = l) then Some v else None
                 end) tr.

(** The events a run added to the trace. *)
Definition new_events (s s' : state) : list event :=
  drop (length (trace s)) (trace s').

(** An instance of the class in good standing: it is in the store, it is of
    the subclass, its [_listeners] is a list of the store, and its window
    lies inside its buffer. *)
Definition is_listener_array (s : state) (o : loc) : Prop :=
  ∃ a l ls d,
    objs s !! o = Some a ∧ a_cls a = NdarrayListener ∧
    a_dict a !! "_listeners" = Some (PList l) ∧ lsts s !! l = Some ls ∧
    bufs s !! a_buf a = Some d ∧ a_off a + a_len a ≤ length d ∧
    (a_nd a = D0 → a_len a = 1).

(** ** Sample runs *)

Definition w0 : pyobject := PyObject 0 Returns.
Definition w1 : pyobject := PyObject 1 Returns.
Definition junk : pyobject := PyObject 7 NotCallable.

(** A one-dimensional array [[-5, 1, 11]] with [w0] subscribed: the array
    is object 1 of the resulting store. *)
Definition watched_vector : M loc :=
  let* a := __new__ (InSeq [-5; 1; 11]%Z) in
  talk_to a w0 ;;
  ret a.

Definition vector_store : state := (watched_vector empty_state).2.

(** The array object of [vector_store] and the contents of its buffer. *)
Definition vector_obj : arr :=
  Arr NdarrayListener 0 0 3 D1 {["_listeners"%string := PList 1]}.

Definition vector_data : list Z := [-5; 1; 11]%Z.

Definition w2 : pyobject := PyObject 2 Returns.

(** The array [[-5, 1, 11]] with [w0], [w1] and [w0] again subscribed, in
    this order: object 1 of the resulting store. *)
Definition watched_twice : M loc :=
  let* a := __new__ (InSeq [-5; 1; 11]%Z) in
  talk_to a w0 ;;
  talk_to a w1 ;;
  talk_to a w0 ;;
  ret a.

Definition twice_store : state := (watched_twice empty_state).2.

(** [a] with [w0] subscribed, [b = a.copy()], then [w1] subscribed on [b]
    only and [w2] subscribed on [a] only. *)
Definition copy_then_subscribe : M (loc * loc) :=
  let* a := __new__ (InSeq [-5; 1]%Z) in
  talk_to a w0 ;;
  let* b := copy a in
  talk_to b w1 ;;
  talk_to a w2 ;;
  ret (a, b).

(** The first example of the docstring of the class, up to the third
    [itemset] (numbers in tenths):
    <<
    scalar = ndarray_listener(-0.5)
    scalar.talk_to(you0)
    scalar.itemset(-1.0)       # First guy called with -1.0
    s0 = scalar.copy()
    s0.itemset(-0.5)           # First guy called with -0.5
    s0.talk_to(you1)
    scalar.itemset(0.0)        # First guy called with 0.0
                               # Second guy called with 0.0
    >> *)
Definition docstring_scalar : M unit :=
  let* scalar := __new__ (InScalar (-5)) in
  talk_to scalar w0 ;;
  itemset scalar (ItemsetValue (-10)) ;;
  let* s0 := copy scalar in
  itemset s0 (ItemsetValue (-5)) ;;
  talk_to s0 w1 ;;
  itemset scalar (ItemsetValue 0).

(** ** Auxiliary notions for the statements *)

(** The registered objects a notification calls, and the exception it ends
    with if any: the loop stops at the first entry that raises (after
    having called it) or that is not callable (without calling anything). *)
Fixpoint notified (ls : list pyobject) : list pyobject * option exn :=
  match ls with
  | [] => ([], None)
  | l :: ls' =>
      match ob_call l with
      | Returns => let '(called, e) := notified ls' in (l :: called, e)
      | Raises => ([l], Some (ListenerError l))
      | NotCallable => ([], Some TypeError)
      end
  end.

Definition finish (e : option exn) : outcome unit :=
  match e with
  | None => Ok tt
  | Some x => Raise x
  end.

(** The mutating operations of the class. *)
Inductive mutation :=
| SetItem (idx : index) (r : rhs)
| SetSlice (i j : Z) (r : rhs)
| ItemSet (args : itemset_args)
| SetAttr (name : string) (v : pyval).

(** The inherited operation a mutating operation delegates to. *)
Definition inherited (self : loc) (m : mutation) : M unit :=
  match m with
  | SetItem idx r => ndarray_setitem self idx r
  | SetSlice i j r => ndarray_setslice self i j r
  | ItemSet args => ndarray_itemset self args
  | SetAttr name v => ndarray_setattr self name v
  end.

(** The method of the class that performs a mutating operation. *)
Definition mutate (self : loc) (m : mutation) : M unit :=
  match m with
  | SetItem idx r => __setitem__ self idx r
  | SetSlice i j r => __setslice__ self i j r
  | ItemSet args => itemset self args
  | SetAttr name v => __setattr__ self name v
  end.

(** Assignments to [_listeners] are the one operation on attributes that
    is not a mutation of the data. *)
Definition on_data (m : mutation) : Prop :=
  match m with
  | SetAttr name _ => name ≠ "_listeners"%string
  | _ => True
  end.

(** [s'] is [s] with new buffers, lists and objects allocated: nothing that
    exists in [s] has been changed. *)
Definition extends (s s' : state) : Prop :=
  (∃ more, bufs s' = bufs s ++ more) ∧
  (∃ more, lsts s' = lsts s ++ more) ∧
  (∃ more, objs s' = objs s ++ more).

(** The indices for which the inherited read returns a view rather than a
    bare scalar. *)
Definition view_index (a : arr) (idx : index) : Prop :=
  match idx, a_nd a with
  | IInt _, _ | IEmptyTuple, D0 => False
  | _, _ => True
  end.


(** The registered objects that return normally when called. *)
Definition returns (l : pyobject) : Prop := ob_call l = Returns.

(** A computation is silent when, from every store and whatever its
    outcome, it adds nothing to the trace. *)
Definition silent {A} (m : M A) : Prop :=
  ∀ s, trace (m s).2 = trace s.


(** ** Notions and samples for the further properties *)

(** The statement [self._listeners = []]: a new empty list is made and
    assigned through [__setattr__]. *)
Definition assign_empty_listeners (self : loc) : M unit :=
  let* l := new_list in
  __setattr__ self "_listeners" (PList l).

(** A base-class array in good standing: it is in the store, it has no
    instance dictionary entry [_listeners], and its window lies inside its
    buffer. *)
Definition is_base_array (s : state) (o : loc) : Prop :=
  ∃ a d,
    objs s !! o = Some a ∧ a_cls a = Ndarray ∧
    a_dict a !! "_listeners"%string = None ∧
    bufs s !! a_buf a = Some d ∧ a_off a + a_len a ≤ length d ∧
    (a_nd a = D0 → a_len a = 1).

(** A base-class array [[4, 5, 6]] and nothing else. *)
Definition base_store : state :=
  State [[4; 5; 6]%Z] [] [Arr Ndarray 0 0 3 D1 ∅] [].

Definition thrower : pyobject := PyObject 9 Raises.

(** What the constructor does on an input without listeners: from store
    [s] it returns a new instance in good standing with contents [v] and an
    empty list of listeners that no instance of [s] holds, and it leaves
    everything that exists in [s] as it is. *)
Definition constructs_unobserved (s : state) (x : input) (v : ndvalue) : Prop :=
  ∃ o s1, __new__ x s = (Ok o, s1) ∧ extends s s1 ∧ trace s1 = trace s ∧
          is_listener_array s1 o ∧ listeners_of s1 o = Some [] ∧
          value_at s1 o = Some v ∧
          (∀ y, is_listener_array s y →
                listeners_ref s1 y ≠ listeners_ref s1 o).

(** Two array objects that look at the same window of the same buffer. *)
Definition same_window (a b : arr) : Prop :=
  a_buf a = a_buf b ∧ a_off a = a_off b ∧ a_len a = a_len b ∧ a_nd a = a_nd b.

(** The array [[-5, 1, 11]] with three listeners subscribed in the order
    [w0], [thrower], [w1]: object 1 of the resulting store. *)
Definition watched_by_thrower : M loc :=
  let* a := __new__ (InSeq [-5; 1; 11]%Z) in
  talk_to a w0 ;;
  talk_to a thrower ;;
  talk_to a w1 ;;
  ret a.

Definition thrower_store : state := (watched_by_thrower empty_state).2.

(** The array of [vector_store] and a view [a[:]] of it: objects 1 and 2
    of the resulting store. *)
Definition vector_with_view : M (loc * loc) :=
  let* a := watched_vector in
  let* v := __getitem__ a (ISlice None None) in
  ret (a, v).

Definition view_store : state := (vector_with_view empty_state).2.

(** * Properties *)

(** ** Operations that leave the trace alone *)

Lemma silent_ret {A} (x : A) : silent (ret x).
Proof. by intros s. Qed.

Lemma silent_raise {A} (e : exn) : silent (@raise A e).
Proof. by intros s. Qed.

Lemma silent_unmodelled {A} : silent (@unmodelled A).
Proof. by intros s. Qed.

Lemma silent_bind {A B} (m : M A) (k : A → M B) :
  silent m → (∀ x, silent (k x)) → silent (bind m k).
Proof.
  intros Hm Hk s. unfold bind.
  specialize (Hm s). destruct (m s) as [[x|e|] s1]; simpl in *.
  - by rewrite Hk.
  - done.
  - done.
Qed.

Lemma silent_for_each {A} (xs : list A) (body : A → M unit) :
  (∀ x, silent (body x)) → silent (for_each xs body).
Proof.
  intros Hb. induction xs as [|x xs IH]; simpl.
  - apply silent_ret.
  - apply silent_bind; [apply Hb | by intros _].
Qed.

Lemma silent_deref_obj o : silent (deref_obj o).
Proof. intros s. unfold deref_obj. by destruct (objs s !! o). Qed.

Lemma silent_deref_buf b : silent (deref_buf b).
Proof. intros s. unfold deref_buf. by destruct (bufs s !! b). Qed.

Lemma silent_deref_list l : silent (deref_list l).
Proof. intros s. unfold deref_list. by destruct (lsts s !! l). Qed.

Lemma silent_store_obj o a : silent (store_obj o a).
Proof. by intros s. Qed.

Lemma silent_store_buf b d : silent (store_buf b d).
Proof. by intros s. Qed.

Lemma silent_store_list l ls : silent (store_list l ls).
Proof. by intros s. Qed.

Lemma silent_new_obj a : silent (new_obj a).
Proof. by intros s. Qed.

Lemma silent_new_buf d : silent (new_buf d).
Proof. by intros s. Qed.

Lemma silent_new_list : silent new_list.
Proof. by intros s. Qed.

(** Peels a computation apart along its binds and case distinctions, down
    to the primitives. *)
Ltac silence :=
  repeat first
    [ apply silent_ret | apply silent_raise | apply silent_unmodelled
    | apply silent_deref_obj | apply silent_deref_buf | apply silent_deref_list
    | apply silent_store_obj | apply silent_store_buf | apply silent_store_list
    | apply silent_new_obj | apply silent_new_buf | apply silent_new_list
    | assumption
    | apply silent_bind; [|intros ?]
    | apply silent_for_each; intros ?
    | match goal with
      | |- silent (match ?x with _ => _ end) => destruct x
      | |- silent (if ?b then _ else _) => destruct b
      end ].

Lemma silent_asarray x : silent (asarray x).
Proof. unfold asarray. silence. Qed.

Lemma silent_getattr o name : silent (getattr o name).
Proof. unfold getattr. silence. Qed.

Lemma silent_getattr_default o name dflt : silent (getattr_default o name dflt).
Proof. unfold getattr_default. silence. Qed.

Lemma silent_hasattr x name : silent (hasattr x name).
Proof. unfold hasattr. silence. Qed.

Lemma silent_ndarray_setattr o name v : silent (ndarray_setattr o name v).
Proof. unfold ndarray_setattr. silence. Qed.

(** Writing [_listeners] goes through [__setattr__] and returns before the
    notification. *)
Lemma silent_setattr_listeners o v : silent (__setattr__ o "_listeners" v).
Proof.
  unfold __setattr__. apply silent_bind; [apply silent_ndarray_setattr|].
  intros _. destruct (decide _) as [_|Hne]; [apply silent_ret | done].
Qed.

Lemma silent_array_finalize o obj : silent (__array_finalize__ o obj).
Proof.
  unfold __array_finalize__. destruct obj; [|apply silent_ret].
  apply silent_bind; [apply silent_new_list|]. intros fresh.
  apply silent_bind; [apply silent_getattr_default|]. intros v.
  apply silent_setattr_listeners.
Qed.

Lemma silent_derive src c b off len nd : silent (derive src c b off len nd).
Proof.
  unfold derive. apply silent_bind; [apply silent_new_obj|]. intros o.
  apply silent_bind; [|intros _; apply silent_ret].
  destruct c; [apply silent_ret | apply silent_array_finalize].
Qed.

Lemma silent_ndarray_view o c : silent (ndarray_view o c).
Proof.
  unfold ndarray_view. apply silent_bind; [apply silent_deref_obj|].
  intros a. apply silent_derive.
Qed.

Lemma silent_ndarray_copy o : silent (ndarray_copy o).
Proof.
  unfold ndarray_copy.
  do 3 (apply silent_bind; [silence|]; intros ?). apply silent_derive.
Qed.

Lemma silent_ndarray_getitem o idx : silent (ndarray_getitem o idx).
Proof.
  unfold ndarray_getitem. apply silent_bind; [apply silent_deref_obj|].
  intros a. destruct (target a idx) as [[start n]|]; [|apply silent_raise].
  pose proof (silent_derive o (a_cls a) (a_buf a) (a_off a + start) n (a_nd a)).
  destruct idx, (a_nd a); silence.
Qed.

Lemma silent_new x : silent (__new__ x).
Proof.
  unfold __new__.
  apply silent_bind; [apply silent_asarray|]. intros base.
  apply silent_bind; [apply silent_ndarray_view|]. intros obj.
  apply silent_bind; [apply silent_hasattr|]. intros [|].
  - apply silent_bind; [|intros _; apply silent_ret].
    apply silent_bind; [|intros v; apply silent_setattr_listeners].
    unfold getattr_input. destruct x; first [apply silent_raise | apply silent_getattr].
  - apply silent_bind; [|intros _; apply silent_ret].
    apply silent_bind; [apply silent_new_list|].
    intros l. apply silent_setattr_listeners.
Qed.

Lemma silent_talk_to o me : silent (talk_to o me).
Proof.
  unfold talk_to. apply silent_bind; [apply silent_getattr|].
  intros v. unfold append. silence.
Qed.

Lemma silent_iter_listeners o : silent (iter_listeners o).
Proof.
  unfold iter_listeners. apply silent_bind; [apply silent_getattr|].
  intros v. silence.
Qed.

Lemma silent_getitem o idx : silent (__getitem__ o idx).
Proof.
  unfold __getitem__.
  apply silent_bind; [apply silent_ndarray_getitem|]. intros v.
  apply silent_bind; [unfold isinstance_listener; silence|]. intros inst.
  assert (silent (let* w := __new__ (item_input v) in
                  let* ls := iter_listeners o in
                  for_each ls (λ l, talk_to w l) ;; ret w)) as Hre.
  { apply silent_bind; [apply silent_new|]. intros w.
    apply silent_bind; [apply silent_iter_listeners|]. intros ls.
    apply silent_bind; [|intros _; apply silent_ret].
    apply silent_for_each. intros l. apply silent_talk_to. }
  destruct v, inst; first [apply silent_ret | exact Hre].
Qed.

(** ** Symbolic execution of the methods *)

Lemma lookup_snoc_new {A} (l : list A) (x : A) : (l ++ [x]) !! length l = Some x.
Proof. rewrite lookup_app_r by lia. by rewrite Nat.sub_diag. Qed.

Lemma insert_snoc_new {A} (l : list A) (x y : A) :
  <[length l := y]> (l ++ [x]) = l ++ [y].
Proof.
  replace (length l) with (length l + 0) at 1 by lia.
  by rewrite insert_app_r.
Qed.

Lemma listeners_not_readonly : "_listeners"%string ∉ readonly_attrs.
Proof.
  unfold readonly_attrs. intros H.
  repeat (apply elem_of_cons in H as [H|H]; [discriminate|]).
  by apply elem_of_nil in H.
Qed.

Lemma setattr_listeners_spec s o a v :
  objs s !! o = Some a → a_cls a = NdarrayListener →
  __setattr__ o "_listeners" v s =
    (Ok tt, State (bufs s) (lsts s)
              (<[o := set_dict (<["_listeners"%string := v]> (a_dict a)) a]> (objs s))
              (trace s)).
Proof.
  intros Ho Hc. unfold __setattr__, ndarray_setattr, bind, deref_obj.
  rewrite Ho, Hc.
  destruct (decide ("_listeners"%string ∈ readonly_attrs)) as [Hin|_].
  - by destruct listeners_not_readonly.
  - reflexivity.
Qed.

(** The object NumPy derives from [src] in the subclass: its [_listeners]
    is what [src] holds there, or a new empty list when [src] has none. *)
Lemma derive_listener_spec s src a b off len nd :
  objs s !! src = Some a →
  derive src NdarrayListener b off len nd s =
    (Ok (length (objs s)),
     State (bufs s) (lsts s ++ [[]])
       (objs s ++ [Arr NdarrayListener b off len nd
                     {["_listeners"%string :=
                         default (PList (length (lsts s)))
                                 (a_dict a !! "_listeners"%string)]}])
       (trace s)).
Proof.
  intros Hsrc. unfold derive, bind at 1, new_obj. cbn.
  unfold bind at 1. unfold __array_finalize__. unfold bind at 1, new_list. cbn.
  unfold bind at 1, getattr_default, bind at 1, deref_obj. cbn.
  rewrite (lookup_app_l_Some _ _ _ _ Hsrc). cbn.
  erewrite setattr_listeners_spec; cbn; [|apply lookup_snoc_new|done].
  unfold set_dict. cbn [a_dict a_cls a_buf a_off a_len a_nd].
  by rewrite insert_snoc_new, insert_empty.
Qed.

Lemma talk_to_spec s o l ls me :
  listeners_ref s o = Some l → lsts s !! l = Some ls →
  talk_to o me s =
    (Ok tt, State (bufs s) (<[l := ls ++ [me]]> (lsts s)) (objs s) (trace s)).
Proof.
  unfold listeners_ref, talk_to, getattr, bind, deref_obj. intros Hr Hl.
  destruct (objs s !! o) as [a|]; [|done]. cbn in *.
  destruct (a_dict a !! "_listeners"%string) as [[| |l']|]; try done.
  cbn in *. injection Hr as ->. unfold append, bind, deref_list.
  by rewrite Hl.
Qed.

Lemma notify_body_spec s o a d l :
  objs s !! o = Some a → bufs s !! a_buf a = Some d →
  ∃ extra,
    (let* snap := asarray (InArr o) in
     let* v := read_value snap in
     call l v) s =
    (match ob_call l with
     | Returns => Ok tt
     | Raises => Raise (ListenerError l)
     | NotCallable => Raise TypeError
     end,
     State (bufs s) (lsts s) (objs s ++ extra)
       (trace s ++ match ob_call l with
                   | NotCallable => []
                   | _ => [Called l (NdValue (a_nd a) (window a d))]
                   end)).
Proof.
  intros Ho Hd. unfold asarray, bind at 1 2, deref_obj. rewrite Ho.
  destruct (a_cls a) eqn:Hc.
  - exists []. unfold ret, bind at 1, read_value, bind at 1 2, deref_obj, deref_buf.
    rewrite Ho, Hd. unfold ret, call.
    destruct s as [bs ls os tr]; cbn in *. rewrite !app_nil_r.
    destruct (ob_call l); cbn; by rewrite ?app_nil_r.
  - exists [set_dict ∅ (set_cls Ndarray a)].
    unfold new_obj, bind at 1, read_value, bind at 1 2, deref_obj, deref_buf.
    cbn. rewrite lookup_snoc_new. cbn. rewrite Hd. unfold ret, call.
    destruct (ob_call l); cbn; by rewrite ?app_nil_r.
Qed.

Lemma notify_loop_spec o a d ls :
  ∀ s, objs s !! o = Some a → bufs s !! a_buf a = Some d →
  ∃ extra,
    for_each ls (λ l, let* snap := asarray (InArr o) in
                      let* v := read_value snap in
                      call l v) s =
    (finish (notified ls).2,
     State (bufs s) (lsts s) (objs s ++ extra)
       (trace s ++ map (λ l, Called l (NdValue (a_nd a) (window a d)))
                       (notified ls).1)).
Proof.
  induction ls as [|l ls IH]; intros s Ho Hd.
  - exists []. destruct s; cbn. by rewrite !app_nil_r.
  - destruct (notify_body_spec s o a d l Ho Hd) as [extra Hb].
    cbn [for_each]. unfold bind at 1. rewrite Hb. clear Hb.
    cbn [notified]. destruct (ob_call l).
    + edestruct (IH (State (bufs s) (lsts s) (objs s ++ extra)
                       (trace s ++ [Called l (NdValue (a_nd a) (window a d))])))
        as [extra' Hl]; [by apply lookup_app_l_Some | done |].
      rewrite Hl. cbn. destruct (notified ls) as [called e]. cbn.
      exists (extra ++ extra'). by rewrite <- !app_assoc.
    + by exists extra.
    + by exists extra.
Qed.

Lemma notify_spec s o a d ls :
  objs s !! o = Some a → bufs s !! a_buf a = Some d →
  listeners_of s o = Some ls →
  ∃ extra,
    __notify o s =
    (finish (notified ls).2,
     State (bufs s) (lsts s) (objs s ++ extra)
       (trace s ++ map (λ l, Called l (NdValue (a_nd a) (window a d)))
                       (notified ls).1)).
Proof.
  intros Ho Hd Hls.
  destruct (notify_loop_spec o a d ls s Ho Hd) as [extra Hloop].
  exists extra. rewrite <- Hloop.
  unfold __notify, bind at 1, iter_listeners, bind at 1, getattr, bind at 1, deref_obj.
  unfold listeners_of, listeners_ref in Hls. rewrite Ho in *. cbn in *.
  destruct (a_dict a !! "_listeners"%string) as [[| |l']|]; try done.
  cbn in *. unfold deref_list. by rewrite Hls.
Qed.

Lemma notified_returns ls :
  Forall (λ l, ob_call l = Returns) ls → notified ls = (ls, None).
Proof.
  induction 1 as [|l ls Hl _ IH]; [done|]. cbn. by rewrite Hl, IH.
Qed.

Lemma notified_stops ls l rest :
  Forall (λ l, ob_call l = Returns) ls → ob_call l = NotCallable →
  notified (ls ++ l :: rest) = (ls, Some TypeError).
Proof.
  induction 1 as [|l0 ls Hl _ IH]; intros Hn; cbn.
  - by rewrite Hn.
  - by rewrite Hl, IH.
Qed.

Lemma broadcast_length single r n vs :
  broadcast single r n = Values vs → length vs = n.
Proof.
  destruct r as [z|xs]; cbn.
  - case_decide; [|done]. intros [= <-]. apply length_replicate.
  - destruct single; [done|]. case_decide; [|done].
    destruct xs as [|z [|z' xs]].
    + case_decide; [|done]. by intros [= <-].
    + intros [= <-]. apply length_replicate.
    + case_decide; [|done]. by intros [= <-].
Qed.

Lemma broadcast_int64 single r n vs :
  broadcast single r n = Values vs → Forall int64 vs.
Proof.
  destruct r as [z|xs]; cbn.
  - case_decide; [|done]. intros [= <-]. by apply Forall_replicate.
  - destruct single; [done|]. case_decide as Hxs; [|done].
    destruct xs as [|z [|z' xs]].
    + case_decide; [|done]. by intros [= <-].
    + intros [= <-]. apply Forall_replicate. by apply Forall_inv in Hxs.
    + case_decide; [|done]. by intros [= <-].
Qed.

Lemma adjust_index_lt i n k : adjust_index i n = Some k → k < n.
Proof.
  unfold adjust_index. case_bool_decide; [|done]. intros [= <-].
  destruct (i <? 0)%Z; lia.
Qed.

Lemma clip_bound_le i n : clip_bound i n ≤ n.
Proof. unfold clip_bound. destruct (i <? 0)%Z; lia. Qed.

Lemma slice_bounds_le lo hi n start len :
  slice_bounds lo hi n = (start, len) → start + len ≤ n.
Proof.
  unfold slice_bounds. intros [= <- <-].
  assert (from_option (λ i, clip_bound i n) 0 lo ≤ n)
    by (destruct lo; cbn; [apply clip_bound_le | lia]).
  assert (from_option (λ i, clip_bound i n) n hi ≤ n)
    by (destruct hi; cbn; [apply clip_bound_le | lia]).
  lia.
Qed.

Lemma target_bounds a idx start n :
  target a idx = Some (start, n) → start + n ≤ a_len a.
Proof.
  unfold target. destruct idx as [i|lo hi| |], (a_nd a); try done.
  - destruct (adjust_index i (a_len a)) as [k|] eqn:Hk; [|done].
    cbn. intros [= <- <-]. apply adjust_index_lt in Hk. lia.
  - intros H. apply (slice_bounds_le lo hi). congruence.
  - intros [= <- <-]. lia.
  - intros [= <- <-]. lia.
  - intros [= <- <-]. lia.
  - intros [= <- <-]. lia.
Qed.

Lemma length_splice p vs d :
  p + length vs ≤ length d → length (splice p vs d) = length d.
Proof.
  intros H. unfold splice. rewrite !length_app, length_take, length_drop. lia.
Qed.

Lemma splice_singleton k z (w : list Z) :
  k < length w → splice k [z] w = <[k := z]> w.
Proof.
  intros H. unfold splice. cbn [length app].
  rewrite <- (take_drop_middle (<[k:=z]> w) k z)
    by (by apply list_lookup_insert_eq).
  rewrite take_insert_ge by lia. rewrite drop_insert_lt by lia.
  by replace (k + 1) with (S k) by lia.
Qed.

Lemma drop_take_window (l : list Z) m len :
  m ≤ len → drop m (take len l) = take (len - m) (drop m l).
Proof.
  intros H. rewrite take_drop_commute.
  by replace (m + (len - m)) with len by lia.
Qed.

(** Writing through the window of an array changes the elements the array
    sees exactly as the same write on the window itself. *)
Lemma window_splice a d start vs :
  a_off a + a_len a ≤ length d → start + length vs ≤ a_len a →
  window a (splice (a_off a + start) vs d) = splice start vs (window a d).
Proof.
  intros Hd Hs. unfold window, splice.
  rewrite drop_app_le by (rewrite length_take; lia).
  rewrite <- (take_drop_commute d start (a_off a)).
  rewrite take_take, Nat.min_l by lia.
  assert (length (take start (drop (a_off a) d)) = start) as Hlen
    by (rewrite length_take, length_drop; lia).
  rewrite take_app_ge, Hlen by lia.
  rewrite take_app_ge by lia.
  do 2 f_equal.
  rewrite drop_take_window, drop_drop by lia.
  f_equal; [lia|]. f_equal. lia.
Qed.

Lemma ndarray_setitem_spec s o a d idx r start n vs :
  objs s !! o = Some a → bufs s !! a_buf a = Some d →
  target a idx = Some (start, n) →
  broadcast (scalar_target a idx) r n = Values vs →
  ndarray_setitem o idx r s =
    (Ok tt, State (<[a_buf a := splice (a_off a + start) vs d]> (bufs s))
              (lsts s) (objs s) (trace s)).
Proof.
  intros Ho Hd Ht Hb. unfold ndarray_setitem, bind, deref_obj.
  rewrite Ho, Ht, Hb. unfold deref_buf. by rewrite Hd.
Qed.

(** What a successful inherited write has done to the store: it has
    overwritten a part of the window of the array in its buffer, or it has
    added an entry to the instance dictionary of the array. *)
Lemma inherited_ok_inv o m s s1 :
  inherited o m s = (Ok tt, s1) →
  ∃ a, objs s !! o = Some a ∧
    ((∃ d p vs, bufs s !! a_buf a = Some d ∧ p + length vs ≤ a_len a ∧
        s1 = State (<[a_buf a := splice (a_off a + p) vs d]> (bufs s))
               (lsts s) (objs s) (trace s)) ∨
     (∃ name v, m = SetAttr name v ∧ a_cls a = NdarrayListener ∧
        s1 = State (bufs s) (lsts s)
               (<[o := set_dict (<[name := v]> (a_dict a)) a]> (objs s))
               (trace s))).
Proof.
  assert (∀ idx r, ndarray_setitem o idx r s = (Ok tt, s1) →
    ∃ a, objs s !! o = Some a ∧
      ∃ d p vs, bufs s !! a_buf a = Some d ∧ p + length vs ≤ a_len a ∧
        s1 = State (<[a_buf a := splice (a_off a + p) vs d]> (bufs s))
               (lsts s) (objs s) (trace s)) as Hset.
  { intros idx r. unfold ndarray_setitem, bind, deref_obj.
    destruct (objs s !! o) as [a|] eqn:Ho; [|done].
    destruct (target a idx) as [[start n]|] eqn:Ht; [|done].
    destruct (broadcast (scalar_target a idx) r n) as [vs|e] eqn:Hb; [|done].
    unfold deref_buf. destruct (bufs s !! a_buf a) as [d|] eqn:Hd; [|done].
    intros [= <-]. exists a. split; [done|]. exists d, start, vs.
    apply target_bounds in Ht. apply broadcast_length in Hb.
    split; [done|]. split; [lia|done]. }
  destruct m as [idx r|i j r|args|name v]; cbn [inherited]; intros H.
  - destruct (Hset _ _ H) as (a & Ho & Hw). exists a. eauto.
  - done.
  - revert H. unfold ndarray_itemset, bind, deref_obj.
    destruct (objs s !! o) as [a|] eqn:Ho; [|done].
    exists a. split; [done|]. left. revert H. destruct args as [v|i v].
    + case_decide as Hlen; [|done]. case_decide; [|done]. unfold deref_buf.
      destruct (bufs s !! a_buf a) as [d|] eqn:Hd; [|done].
      intros [= <-]. exists d, 0, [v]. rewrite Nat.add_0_r.
      split; [done|]. split; [cbn; lia|done].
    + destruct (adjust_index i (a_len a)) as [k|] eqn:Hk; [|done].
      case_decide; [|done].
      unfold deref_buf. destruct (bufs s !! a_buf a) as [d|] eqn:Hd; [|done].
      intros [= <-]. exists d, k, [v]. apply adjust_index_lt in Hk.
      split; [done|]. split; [cbn; lia|done].
  - revert H. unfold ndarray_setattr, bind, deref_obj.
    destruct (objs s !! o) as [a|] eqn:Ho; [|done].
    destruct (attr_kind_of name); [|done|done].
    destruct (a_cls a) eqn:Hc; [done|].
    intros [= <-]. exists a. split; [done|]. right. by exists name, v.
Qed.

(** A failed inherited write has changed nothing. *)
Lemma inherited_raise_inv o m s e s1 :
  inherited o m s = (Raise e, s1) → s1 = s.
Proof.
  assert (∀ idx r, ndarray_setitem o idx r s = (Raise e, s1) → s1 = s) as Hset.
  { intros idx r. unfold ndarray_setitem, bind, deref_obj.
    destruct (objs s !! o) as [a|]; [|by intros [= _ <-]].
    destruct (target a idx) as [[start n]|]; [|by intros [= _ <-]].
    destruct (broadcast (scalar_target a idx) r n) as [vs|e'];
      [|by intros [= _ <-]].
    unfold deref_buf. destruct (bufs s !! a_buf a) as [d|]; [done|].
    by intros [= _ <-]. }
  destruct m as [idx r|i j r|args|name v]; cbn [inherited]; eauto.
  - by intros [= _ <-].
  - unfold ndarray_itemset, bind, deref_obj.
    destruct (objs s !! o) as [a|]; [|by intros [= _ <-]].
    destruct args as [v|i v].
    + case_decide; [|by intros [= _ <-]].
      case_decide; [|by intros [= _ <-]]. unfold deref_buf.
      destruct (bufs s !! a_buf a) as [d|]; [done|]. by intros [= _ <-].
    + destruct (adjust_index i (a_len a)) as [k|]; [|by intros [= _ <-]].
      case_decide; [|by intros [= _ <-]]. unfold deref_buf.
      destruct (bufs s !! a_buf a) as [d|]; [done|]. by intros [= _ <-].
  - unfold ndarray_setattr, bind, deref_obj.
    destruct (objs s !! o) as [a|]; [|by intros [= _ <-]].
    destruct (attr_kind_of name); [|by intros [= _ <-]|done].
    destruct (a_cls a); [by intros [= _ <-]|done].
Qed.

(** An inherited write that meets the end of the modelled fragment has
    changed nothing. *)
Lemma inherited_unmodelled_inv o m s s1 :
  inherited o m s = (Unmodelled, s1) → s1 = s.
Proof.
  destruct m as [idx r|i j r|args|name v]; cbn [inherited].
  - unfold ndarray_setitem, bind, deref_obj.
    destruct (objs s !! o) as [a|]; [|done].
    destruct (target a idx) as [[start n]|]; [|done].
    destruct (broadcast (scalar_target a idx) r n) as [vs|e']; [|done].
    unfold deref_buf. by destruct (bufs s !! a_buf a) as [d|].
  - done.
  - unfold ndarray_itemset, bind, deref_obj.
    destruct (objs s !! o) as [a|]; [|done].
    destruct args as [v|i v].
    + case_decide; [|done]. case_decide; [|done]. unfold deref_buf.
      by destruct (bufs s !! a_buf a) as [d|].
    + destruct (adjust_index i (a_len a)) as [k|]; [|done].
      case_decide; [|done]. unfold deref_buf.
      by destruct (bufs s !! a_buf a) as [d|].
  - unfold ndarray_setattr, bind, deref_obj.
    destruct (objs s !! o) as [a|]; [|done].
    destruct (attr_kind_of name); [|done|by intros [= <-]].
    by destruct (a_cls a).
Qed.

(** Every mutating method is the inherited operation followed by the
    notification, which only an assignment to [_listeners] skips. *)
Lemma mutate_unfold o m s :
  mutate o m s =
  (inherited o m ;;
   match m with
   | SetAttr name _ =>
       if decide (name = "_listeners"%string) then ret tt else __notify o
   | _ => __notify o
   end) s.
Proof. by destruct m. Qed.

Lemma mutate_raise o m s e s1 :
  inherited o m s = (Raise e, s1) → mutate o m s = (Raise e, s).
Proof.
  intros H. rewrite mutate_unfold. unfold bind. rewrite H.
  by rewrite (inherited_raise_inv _ _ _ _ _ H).
Qed.

Lemma mutate_unmodelled o m s s1 :
  inherited o m s = (Unmodelled, s1) → mutate o m s = (Unmodelled, s).
Proof.
  intros H. rewrite mutate_unfold. unfold bind. rewrite H.
  by rewrite (inherited_unmodelled_inv _ _ _ _ H).
Qed.

Lemma extends_refl s : extends s s.
Proof. repeat split; exists []; by rewrite app_nil_r. Qed.

Lemma extends_trans s1 s2 s3 : extends s1 s2 → extends s2 s3 → extends s1 s3.
Proof.
  intros ((b1 & Hb1) & (l1 & Hl1) & (o1 & Ho1)) ((b2 & Hb2) & (l2 & Hl2) & (o2 & Ho2)).
  repeat split.
  - exists (b1 ++ b2). by rewrite Hb2, Hb1, app_assoc.
  - exists (l1 ++ l2). by rewrite Hl2, Hl1, app_assoc.
  - exists (o1 ++ o2). by rewrite Ho2, Ho1, app_assoc.
Qed.

Lemma extends_alloc s bs ls os tr :
  extends s (State (bufs s ++ bs) (lsts s ++ ls) (objs s ++ os) tr).
Proof. repeat split; by eexists. Qed.

Lemma extends_value_at s s' o v :
  extends s s' → value_at s o = Some v → value_at s' o = Some v.
Proof.
  intros ((bs & Hb) & _ & os & Ho). unfold value_at. rewrite Hb, Ho.
  destruct (objs s !! o) as [a|] eqn:Ha; [|done].
  rewrite (lookup_app_l_Some _ _ _ _ Ha). cbn.
  destruct (bufs s !! a_buf a) as [d|] eqn:Hd; [|done].
  by rewrite (lookup_app_l_Some _ _ _ _ Hd).
Qed.

Lemma extends_listeners_ref s s' o l :
  extends s s' → listeners_ref s o = Some l → listeners_ref s' o = Some l.
Proof.
  intros (_ & _ & os & Ho). unfold listeners_ref. rewrite Ho.
  destruct (objs s !! o) as [a|] eqn:Ha; [|done].
  by rewrite (lookup_app_l_Some _ _ _ _ Ha).
Qed.

Lemma extends_listeners_of s s' o ls :
  extends s s' → listeners_of s o = Some ls → listeners_of s' o = Some ls.
Proof.
  intros Hext. unfold listeners_of.
  destruct (listeners_ref s o) as [l|] eqn:Hr; [|done].
  rewrite (extends_listeners_ref _ _ _ _ Hext Hr). cbn.
  destruct Hext as (_ & (more & ->) & _). apply lookup_app_l_Some.
Qed.

Lemma extends_is_listener_array s s' o :
  extends s s' → is_listener_array s o → is_listener_array s' o.
Proof.
  intros ((bs & Hb) & (lx & Hl) & os & Ho) (a & l & ls & d & Ha & Hc & Hd & Hls & Hbuf & Hrest).
  exists a, l, ls, d. rewrite Hb, Hl, Ho.
  split; [by apply lookup_app_l_Some|]. split; [done|]. split; [done|].
  split; [by apply lookup_app_l_Some|]. split; [by apply lookup_app_l_Some|done].
Qed.

Lemma is_listener_array_listeners s o :
  is_listener_array s o → is_Some (listeners_of s o).
Proof.
  intros (a & l & ls & d & Ha & _ & Hl & Hls & _).
  exists ls. unfold listeners_of, listeners_ref. rewrite Ha. cbn.
  rewrite Hl. cbn. done.
Qed.

Lemma is_listener_array_value s o :
  is_listener_array s o → is_Some (value_at s o).
Proof.
  intros (a & l & ls & d & Ha & _ & _ & _ & Hd & _).
  unfold value_at. rewrite Ha. cbn. rewrite Hd. by eexists.
Qed.

(** A successful inherited write that is not an assignment to [_listeners]
    leaves the array in good standing, with the listeners it had. *)
Lemma inherited_keeps s o m s1 :
  is_listener_array s o → on_data m → inherited o m s = (Ok tt, s1) →
  is_listener_array s1 o ∧ listeners_of s1 o = listeners_of s o ∧
  trace s1 = trace s ∧ lsts s1 = lsts s.
Proof.
  intros (a & l & ls & d & Ha & Hc & Hl & Hls & Hd & Hw & H0) Hm Hin.
  destruct (inherited_ok_inv _ _ _ _ Hin) as (a' & Ha' & Hcase).
  assert (a' = a) as -> by congruence.
  destruct Hcase as [(d' & p & vs & Hd' & Hp & ->)|(name & v & -> & _ & ->)].
  - assert (d' = d) as -> by congruence.
    split; [|done]. exists a, l, ls, (splice (a_off a + p) vs d). cbn.
    rewrite list_lookup_insert_eq by (by eapply lookup_lt_Some).
    rewrite length_splice by lia. done.
  - cbn in Hm.
    assert (objs s !! o = Some a → o < length (objs s)) as Hlt
      by apply lookup_lt_Some.
    split.
    + exists (set_dict (<[name:=v]> (a_dict a)) a), l, ls, d. cbn.
      rewrite list_lookup_insert_eq by auto.
      rewrite lookup_insert_ne by done. done.
    + split; [|done]. unfold listeners_of, listeners_ref. cbn.
      rewrite list_lookup_insert_eq by auto. rewrite Ha. cbn.
      by rewrite lookup_insert_ne by done.
Qed.

(** A mutating method on an array in good standing: when the inherited
    write succeeds, the notification runs on the store the write has
    produced, with the contents of the array in that store. *)
Lemma mutate_spec s o m s1 ls :
  is_listener_array s o → on_data m → inherited o m s = (Ok tt, s1) →
  listeners_of s o = Some ls →
  ∃ v s2,
    value_at s1 o = Some v ∧
    mutate o m s = (finish (notified ls).2, s2) ∧
    trace s2 = trace s ++ map (λ l, Called l v) (notified ls).1 ∧
    extends s1 s2.
Proof.
  intros Hwf Hm Hin Hls.
  destruct (inherited_keeps _ _ _ _ Hwf Hm Hin) as (Hwf1 & Hls1 & Htr & _).
  rewrite Hls in Hls1.
  destruct Hwf1 as (a & l & ls' & d & Ha & _ & _ & _ & Hd & _).
  destruct (notify_spec s1 o a d ls Ha Hd Hls1) as [extra Hn].
  eexists _, _. split; [|split; [|split]].
  - unfold value_at. rewrite Ha. cbn. by rewrite Hd.
  - rewrite mutate_unfold. unfold bind. rewrite Hin.
    destruct m as [| | |name v]; try exact Hn.
    cbn in Hm. by case_decide.
  - cbn. by rewrite Htr.
  - split; [|split]; [exists [] | exists [] | exists extra]; cbn;
      by rewrite ?app_nil_r.
Qed.

(** A read that returns a view: the view is the new object NumPy derives
    from the array, and [__getitem__] returns it as it is. *)
Lemma getitem_view_spec s o a idx start n :
  objs s !! o = Some a → a_cls a = NdarrayListener →
  target a idx = Some (start, n) → view_index a idx →
  __getitem__ o idx s =
    (Ok (length (objs s)),
     State (bufs s) (lsts s ++ [[]])
       (objs s ++ [Arr NdarrayListener (a_buf a) (a_off a + start) n (a_nd a)
                     {["_listeners"%string :=
                         default (PList (length (lsts s)))
                                 (a_dict a !! "_listeners"%string)]}])
       (trace s)).
Proof.
  intros Ho Hc Ht Hv.
  unfold __getitem__, bind at 1, ndarray_getitem, bind at 1, deref_obj.
  rewrite Ho, Ht.
  assert (∀ k : loc → M item,
    (let* v := derive o (a_cls a) (a_buf a) (a_off a + start) n (a_nd a) in
     ret (ItemArr v)) s =
    (Ok (ItemArr (length (objs s))),
     State (bufs s) (lsts s ++ [[]])
       (objs s ++ [Arr NdarrayListener (a_buf a) (a_off a + start) n (a_nd a)
                     {["_listeners"%string :=
                         default (PList (length (lsts s)))
                                 (a_dict a !! "_listeners"%string)]}])
       (trace s))) as Hd.
  { intros _. unfold bind. rewrite Hc.
    by rewrite (derive_listener_spec _ _ _ _ _ _ _ Ho). }
  unfold view_index in Hv.
  destruct idx, (a_nd a) eqn:Hnd; try done; rewrite (Hd (λ _, ret (ItemScalar 0)));
    unfold bind, isinstance_listener, bind, deref_obj; cbn;
    by rewrite lookup_snoc_new.
Qed.

(** A copy: a new buffer with the elements of the array, and the new
    object NumPy derives from the array on that buffer. *)
Lemma copy_spec s o a d :
  objs s !! o = Some a → a_cls a = NdarrayListener →
  bufs s !! a_buf a = Some d →
  copy o s =
    (Ok (length (objs s)),
     State (bufs s ++ [window a d]) (lsts s ++ [[]])
       (objs s ++ [Arr NdarrayListener (length (bufs s)) 0 (a_len a) (a_nd a)
                     {["_listeners"%string :=
                         default (PList (length (lsts s)))
                                 (a_dict a !! "_listeners"%string)]}])
       (trace s)).
Proof.
  intros Ho Hc Hd.
  unfold copy, ndarray_copy, bind at 1, deref_obj. rewrite Ho.
  unfold bind at 1, deref_buf. rewrite Hd.
  unfold bind at 1, new_buf. rewrite Hc.
  by erewrite derive_listener_spec.
Qed.

Lemma talk_loop_spec w lw ls :
  ∀ s cur, listeners_ref s w = Some lw → lsts s !! lw = Some cur →
  for_each ls (λ l, talk_to w l) s =
    (Ok tt, State (bufs s) (<[lw := cur ++ ls]> (lsts s)) (objs s) (trace s)).
Proof.
  induction ls as [|l ls IH]; intros s cur Hr Hl.
  - cbn. rewrite app_nil_r, list_insert_id by done. by destruct s.
  - cbn [for_each]. unfold bind. rewrite (talk_to_spec _ _ _ _ _ Hr Hl).
    rewrite (IH _ (cur ++ [l])); cbn.
    + by rewrite list_insert_insert_eq, <- app_assoc.
    + done.
    + apply list_lookup_insert_eq. by eapply lookup_lt_Some.
Qed.

Lemma insert_snoc2_new {A} (l : list A) (x y z : A) :
  <[S (length l) := z]> (l ++ [x; y]) = l ++ [x; z].
Proof.
  replace (S (length l)) with (length l + 1) by lia.
  by rewrite insert_app_r.
Qed.

Lemma lookup_snoc2_new {A} (l : list A) (x y : A) :
  (l ++ [x; y]) !! S (length l) = Some y.
Proof.
  rewrite lookup_app_r by lia.
  by replace (S (length l) - length l) with 1 by lia.
Qed.

(** The constructor applied to a value without [_listeners]: a new buffer,
    a base-class array on it, and the new instance with a list of its
    own. *)
Lemma new_fresh_spec s x d nd :
  (x = InScalar (default 0%Z (head d)) ∧ nd = D0 ∧ length d = 1) ∨
  (x = InSeq d ∧ nd = D1) →
  __new__ x s =
    (Ok (S (length (objs s))),
     State (bufs s ++ [d]) (lsts s ++ [[]; []])
       (objs s ++ [Arr Ndarray (length (bufs s)) 0 (length d) nd ∅;
                   Arr NdarrayListener (length (bufs s)) 0 (length d) nd
                     {["_listeners"%string := PList (S (length (lsts s)))]}])
       (trace s)).
Proof.
  intros Hx.
  assert (asarray x s =
          (Ok (length (objs s)),
           State (bufs s ++ [d]) (lsts s) 
             (objs s ++ [Arr Ndarray (length (bufs s)) 0 (length d) nd ∅])
             (trace s))) as Has.
  { destruct Hx as [(-> & -> & Hlen)|(-> & ->)]; [|done].
    destruct d as [|z [|? ?]]; try done. }
  assert (hasattr x "_listeners" = ret false) as Hh
    by (by destruct Hx as [(-> & _)|(-> & _)]).
  unfold __new__, bind at 1. rewrite Has. clear Has.
  unfold bind at 1, ndarray_view, bind at 1, deref_obj.
  cbn [objs bufs lsts trace]. rewrite lookup_snoc_new.
  erewrite derive_listener_spec by apply lookup_snoc_new.
  cbn [objs bufs lsts trace a_cls a_buf a_off a_len a_nd a_dict].
  rewrite Hh. unfold bind at 1, ret. cbv beta iota.
  unfold bind at 1 2, new_list. cbn [objs bufs lsts trace].
  erewrite setattr_listeners_spec; [|apply lookup_snoc_new|done].
  cbn [objs bufs lsts trace]. unfold set_dict.
  cbn [a_cls a_buf a_off a_len a_nd a_dict].
  rewrite insert_snoc_new, insert_singleton_eq.
  rewrite !length_app. cbn [length]. rewrite !Nat.add_1_r, <- !app_assoc.
  done.
Qed.

Lemma new_scalar_spec s z :
  __new__ (InScalar z) s =
    (Ok (S (length (objs s))),
     State (bufs s ++ [[z]]) (lsts s ++ [[]; []])
       (objs s ++ [Arr Ndarray (length (bufs s)) 0 1 D0 ∅;
                   Arr NdarrayListener (length (bufs s)) 0 1 D0
                     {["_listeners"%string := PList (S (length (lsts s)))]}])
       (trace s)).
Proof. apply (new_fresh_spec s _ [z] D0). by left. Qed.

Lemma new_seq_spec s xs :
  __new__ (InSeq xs) s =
    (Ok (S (length (objs s))),
     State (bufs s ++ [xs]) (lsts s ++ [[]; []])
       (objs s ++ [Arr Ndarray (length (bufs s)) 0 (length xs) D1 ∅;
                   Arr NdarrayListener (length (bufs s)) 0 (length xs) D1
                     {["_listeners"%string := PList (S (length (lsts s)))]}])
       (trace s)).
Proof. apply (new_fresh_spec s _ xs D1). by right. Qed.

(** The constructor applied to an instance of the class: a base-class view
    of it, and the new instance, on the same window, holding in
    [_listeners] the very value the source holds there. *)
Lemma new_array_spec s src a v :
  objs s !! src = Some a → a_cls a = NdarrayListener →
  a_dict a !! "_listeners"%string = Some v →
  __new__ (InArr src) s =
    (Ok (S (length (objs s))),
     State (bufs s) (lsts s ++ [[]])
       (objs s ++ [set_dict ∅ (set_cls Ndarray a);
                   Arr NdarrayListener (a_buf a) (a_off a) (a_len a) (a_nd a)
                     {["_listeners"%string := v]}])
       (trace s)).
Proof.
  intros Ho Hc Hv.
  unfold __new__, bind at 1, asarray, bind at 1, deref_obj. rewrite Ho, Hc.
  unfold new_obj.
  unfold bind at 1, ndarray_view, bind at 1, deref_obj.
  cbn [objs bufs lsts trace]. rewrite lookup_snoc_new.
  erewrite derive_listener_spec by apply lookup_snoc_new.
  cbn [objs bufs lsts trace a_cls a_buf a_off a_len a_nd a_dict set_dict set_cls].
  unfold bind at 1, hasattr, bind at 1, deref_obj. cbn [objs bufs lsts trace].
  rewrite (lookup_app_l_Some _ _ _ _ (lookup_app_l_Some _ _ _ _ Ho)).
  unfold ret at 1. rewrite Hv. 
  rewrite bool_decide_eq_true_2 by (by eexists).
  unfold bind at 1 2, getattr_input, getattr, bind at 1, deref_obj.
  cbn [objs bufs lsts trace].
  rewrite (lookup_app_l_Some _ _ _ _ (lookup_app_l_Some _ _ _ _ Ho)), Hv.
  unfold ret at 1.
  erewrite setattr_listeners_spec; [|apply lookup_snoc_new|done].
  cbn [objs bufs lsts trace]. unfold set_dict.
  cbn [a_cls a_buf a_off a_len a_nd a_dict].
  rewrite insert_snoc_new, insert_singleton_eq.
  rewrite !length_app. cbn [length]. rewrite !Nat.add_1_r, <- !app_assoc.
  done.
Qed.

Lemma ndarray_getitem_scalar_inv o idx s z s' :
  ndarray_getitem o idx s = (Ok (ItemScalar z), s') → s' = s.
Proof.
  unfold ndarray_getitem, bind at 1, deref_obj.
  destruct (objs s !! o) as [a|]; [|done].
  destruct (target a idx) as [[start n]|]; [|done].
  assert (∀ c,
    (let* v := derive o c (a_buf a) (a_off a + start) n (a_nd a) in
     ret (ItemArr v)) s ≠ (Ok (ItemScalar z), s')) as Hd.
  { intros c. unfold bind. 
    by destruct (derive o c (a_buf a) (a_off a + start) n (a_nd a) s)
      as [[v|e|] s1]. }
  assert ((let* d := deref_buf (a_buf a) in
           match d !! (a_off a + start) with
           | Some z => ret (ItemScalar z)
           | None => raise BadRef
           end) s = (Ok (ItemScalar z), s') → s' = s) as Hs.
  { unfold bind, deref_buf. destruct (bufs s !! a_buf a) as [d|]; [|done].
    destruct (d !! (a_off a + start)); [|done]. by intros [= _ <-]. }
  destruct idx, (a_nd a); first [exact Hs | intros H; by apply Hd in H].
Qed.

(** A read that returns a bare scalar: the scalar is wrapped by the
    constructor in a new zero-dimensional instance with a buffer and a list
    of its own, and the listeners of the array are then appended to that
    list one by one. *)
Lemma getitem_scalar_spec s o idx z s' ls :
  ndarray_getitem o idx s = (Ok (ItemScalar z), s') →
  listeners_of s o = Some ls →
  __getitem__ o idx s =
    (Ok (S (length (objs s))),
     State (bufs s ++ [[z]]) (lsts s ++ [[]; ls])
       (objs s ++ [Arr Ndarray (length (bufs s)) 0 1 D0 ∅;
                   Arr NdarrayListener (length (bufs s)) 0 1 D0
                     {["_listeners"%string := PList (S (length (lsts s)))]}])
       (trace s)).
Proof.
  intros Hget Hls.
  pose proof (ndarray_getitem_scalar_inv _ _ _ _ _ Hget) as ->.
  unfold __getitem__, bind at 1. rewrite Hget.
  unfold bind at 1, isinstance_listener, ret at 1. cbn [item_input].
  unfold bind at 1. rewrite new_scalar_spec.
  set (s1 := State _ _ _ _).
  assert (iter_listeners o s1 = (Ok ls, s1)) as Hit.
  { unfold listeners_of, listeners_ref in Hls.
    unfold iter_listeners, bind, getattr, bind, deref_obj. subst s1. cbn.
    destruct (objs s !! o) as [a|] eqn:Ho; [|done].
    rewrite (lookup_app_l_Some _ _ _ _ Ho). cbn in *.
    destruct (a_dict a !! "_listeners"%string) as [[| |l]|]; try done.
    cbn in *. unfold deref_list. cbn.
    by rewrite (lookup_app_l_Some _ _ _ _ Hls). }
  unfold bind at 1. rewrite Hit. unfold bind at 1.
  rewrite (talk_loop_spec _ (S (length (lsts s))) ls s1 []).
  - subst s1. cbn. by rewrite insert_snoc2_new.
  - subst s1. unfold listeners_ref. cbn. rewrite lookup_snoc2_new. cbn.
    by rewrite lookup_singleton_eq.
  - subst s1. cbn. apply lookup_snoc2_new.
Qed.

(** ** Counting calls *)

Lemma calls_of_map L v ls :
  calls_of L (map (λ l, Called l v) ls) =
  replicate (length (filter (λ l, l = L) ls)) v.
Proof.
  unfold calls_of. induction ls as [|l ls IH]; [done|].
  cbn [map omap list_omap]. rewrite filter_cons.
  destruct (decide (l = L)) as [->|Hne]; cbn [length replicate];
    by rewrite IH.
Qed.

Lemma calls_of_absent L v ls :
  L ∉ ls → calls_of L (map (λ l, Called l v) ls) = [].
Proof.
  intros Hn. rewrite calls_of_map.
  assert (filter (λ l, l = L) ls = []) as ->; [|done].
  induction ls as [|l ls IH]; [done|].
  apply not_elem_of_cons in Hn as [Hne Hn].
  rewrite filter_cons_False by (by intros ->). auto.
Qed.

Lemma new_events_app s s' ev :
  trace s' = trace s ++ ev → new_events s s' = ev.
Proof. intros H. unfold new_events. rewrite H. apply drop_app_length. Qed.

Lemma new_events_same s s' : trace s' = trace s → new_events s s' = [].
Proof. intros H. apply new_events_app. by rewrite app_nil_r. Qed.

(** ** Subscribing *)

Lemma is_listener_array_ref s o :
  is_listener_array s o →
  ∃ l ls, listeners_ref s o = Some l ∧ lsts s !! l = Some ls.
Proof.
  intros (a & l & ls & d & Ha & _ & Hl & Hls & _).
  exists l, ls. unfold listeners_ref. rewrite Ha. cbn. by rewrite Hl.
Qed.

Lemma listeners_of_ref s o l ls :
  listeners_ref s o = Some l → lsts s !! l = Some ls →
  listeners_of s o = Some ls.
Proof. intros Hr Hl. unfold listeners_of. by rewrite Hr. Qed.

(** Replacing the contents of one list object of the store. *)
Section list_update.
Variables (s : state) (l : loc) (old new : list pyobject).
Hypothesis Hold : lsts s !! l = Some old.

Lemma update_listeners_ref y :
  listeners_ref (State (bufs s) (<[l := new]> (lsts s)) (objs s) (trace s)) y =
  listeners_ref s y.
Proof. done. Qed.

Lemma update_value_at y :
  value_at (State (bufs s) (<[l := new]> (lsts s)) (objs s) (trace s)) y =
  value_at s y.
Proof. done. Qed.

Lemma update_listeners_of_same y :
  listeners_ref s y = Some l →
  listeners_of (State (bufs s) (<[l := new]> (lsts s)) (objs s) (trace s)) y =
  Some new.
Proof.
  intros Hr. unfold listeners_of. rewrite update_listeners_ref, Hr. cbn.
  apply list_lookup_insert_eq. by eapply lookup_lt_Some.
Qed.

Lemma update_listeners_of_other y l' :
  listeners_ref s y = Some l' → l' ≠ l →
  listeners_of (State (bufs s) (<[l := new]> (lsts s)) (objs s) (trace s)) y =
  listeners_of s y.
Proof.
  intros Hr Hne. unfold listeners_of. rewrite update_listeners_ref, Hr. cbn.
  by apply list_lookup_insert_ne.
Qed.

Lemma update_is_listener_array y :
  is_listener_array s y →
  is_listener_array (State (bufs s) (<[l := new]> (lsts s)) (objs s) (trace s)) y.
Proof.
  intros (a & l' & ls & d & Ha & Hc & Hl & Hls & Hrest).
  destruct (decide (l' = l)) as [->|Hne].
  - exists a, l, new, d. repeat (split; [done|]). split; [|done].
    apply list_lookup_insert_eq. by eapply lookup_lt_Some.
  - exists a, l', ls, d. repeat (split; [done|]). split; [|done].
    cbn. by rewrite list_lookup_insert_ne.
Qed.

End list_update.

(** Two arrays that hold the same list object: a listener subscribed
    through one of them is called, after all the earlier ones, by the next
    mutation of the other. *)
Lemma shared_subscription s x y l ls L :
  is_listener_array s x → is_listener_array s y →
  listeners_ref s x = Some l → listeners_ref s y = Some l →
  lsts s !! l = Some ls → Forall returns (ls ++ [L]) →
  ∃ s2, talk_to x L s = (Ok tt, s2) ∧ trace s2 = trace s ∧
        listeners_of s2 x = Some (ls ++ [L]) ∧
        listeners_of s2 y = Some (ls ++ [L]) ∧
        ∀ m s3, on_data m → inherited y m s2 = (Ok tt, s3) →
          ∃ v s4, mutate y m s2 = (Ok tt, s4) ∧ value_at s4 y = Some v ∧
                  new_events s2 s4 = map (λ l, Called l v) (ls ++ [L]).
Proof.
  intros Hx Hy Hrx Hry Hl Hret.
  eexists. split; [by apply talk_to_spec|].
  set (s2 := State _ _ _ _).
  assert (listeners_of s2 y = Some (ls ++ [L])) as Hly
    by (by eapply update_listeners_of_same).
  split; [done|]. split; [by eapply update_listeners_of_same|].
  split; [done|]. intros m s3 Hm Hin.
  assert (is_listener_array s2 y) as Hy2 by (by eapply update_is_listener_array).
  destruct (mutate_spec _ _ _ _ _ Hy2 Hm Hin Hly) as (v & s4 & Hv & Hmut & Htr & Hext).
  rewrite (notified_returns _ Hret) in Hmut, Htr. cbn in Hmut, Htr.
  exists v, s4. split; [done|]. split; [by eapply extends_value_at|].
  by apply new_events_app.
Qed.

(** ** Arrays obtained from an array in good standing *)

Lemma extends_alloc_lists s ls os tr :
  extends s (State (bufs s) (lsts s ++ ls) (objs s ++ os) tr).
Proof.
  split; [exists []; cbn; by rewrite app_nil_r|]. split; by eexists.
Qed.

Lemma view_shares s a aa idx start n :
  is_listener_array s a → objs s !! a = Some aa →
  target aa idx = Some (start, n) → view_index aa idx →
  ∃ v s1, __getitem__ a idx s = (Ok v, s1) ∧ extends s s1 ∧
          trace s1 = trace s ∧ v ≠ a ∧ is_listener_array s1 v ∧
          listeners_ref s1 v = listeners_ref s a.
Proof.
  intros (a' & l & ls & d & Ha & Hc & Hl & Hls & Hd & Hw & H0) Haa Ht Hv.
  assert (a' = aa) as -> by congruence.
  eexists _, _. split; [by eapply getitem_view_spec|].
  rewrite Hl. cbn [default].
  split; [|split; [done|split; [|split]]].
  - apply extends_alloc_lists.
  - apply lookup_lt_Some in Ha. lia.
  - eexists _, l, ls, d. cbn. rewrite lookup_snoc_new.
    split; [done|]. cbn. split; [done|].
    split; [apply lookup_singleton_eq|].
    split; [by apply lookup_app_l_Some|]. split; [done|].
    pose proof (target_bounds _ _ _ _ Ht). split; [lia|].
    intros Hnd. specialize (H0 Hnd). revert Ht Hv. unfold target, view_index.
    rewrite Hnd. destruct idx; try done; by intros [= <- <-].
  - unfold listeners_ref. cbn. rewrite lookup_snoc_new, Ha. cbn.
    by rewrite lookup_singleton_eq, Hl.
Qed.

Lemma copy_shares s a :
  is_listener_array s a →
  ∃ b s1, copy a s = (Ok b, s1) ∧ extends s s1 ∧ trace s1 = trace s ∧
          b ≠ a ∧ is_listener_array s1 b ∧
          listeners_ref s1 b = listeners_ref s a ∧
          value_at s1 b = value_at s a ∧
          ∃ ab, objs s1 !! b = Some ab ∧ a_buf ab = length (bufs s).
Proof.
  intros (aa & l & ls & d & Ha & Hc & Hl & Hls & Hd & Hw & H0).
  eexists _, _. split; [by eapply copy_spec|].
  rewrite Hl. cbn [default].
  assert (length (window aa d) = a_len aa) as Hlen
    by (unfold window; rewrite length_take, length_drop; lia).
  split; [apply extends_alloc|]. split; [done|].
  split; [apply lookup_lt_Some in Ha; lia|].
  split; [|split; [|split]].
  - eexists _, l, ls, (window aa d). cbn. rewrite !lookup_snoc_new.
    split; [done|]. cbn. split; [done|].
    split; [apply lookup_singleton_eq|].
    split; [by apply lookup_app_l_Some|].
    split; [apply lookup_snoc_new|]. split; [lia|done].
  - unfold listeners_ref. cbn. rewrite lookup_snoc_new, Ha. cbn.
    by rewrite lookup_singleton_eq, Hl.
  - unfold value_at. cbn. rewrite lookup_snoc_new, Ha. cbn.
    rewrite lookup_snoc_new, Hd. cbn. do 2 f_equal.
    unfold window at 1. cbn [a_len a_off drop].
    apply take_ge. by rewrite Hlen.
  - eexists. split; [apply lookup_snoc_new|done].
Qed.

Lemma new_array_shares s a :
  is_listener_array s a →
  ∃ o s1, __new__ (InArr a) s = (Ok o, s1) ∧ extends s s1 ∧
          trace s1 = trace s ∧ o ≠ a ∧ is_listener_array s1 o ∧
          listeners_ref s1 o = listeners_ref s a ∧
          value_at s1 o = value_at s a.
Proof.
  intros (aa & l & ls & d & Ha & Hc & Hl & Hls & Hd & Hw & H0).
  eexists _, _. split; [by eapply new_array_spec|].
  split; [|split; [done|split; [|split; [|split]]]].
  - apply extends_alloc_lists.
  - apply lookup_lt_Some in Ha. lia.
  - eexists _, l, ls, d. cbn. rewrite lookup_snoc2_new.
    split; [done|]. cbn. split; [done|].
    split; [apply lookup_singleton_eq|].
    split; [by apply lookup_app_l_Some|]. done.
  - unfold listeners_ref. cbn. rewrite lookup_snoc2_new, Ha. cbn.
    by rewrite lookup_singleton_eq, Hl.
  - unfold value_at. cbn. rewrite lookup_snoc2_new, Ha. cbn. by rewrite Hd.
Qed.

(** The instance a scalar read returns: its buffer and its list are new,
    and its list has the entries of the list of the array. *)
Lemma scalar_extraction s a idx z s' ls :
  is_listener_array s a →
  ndarray_getitem a idx s = (Ok (ItemScalar z), s') →
  listeners_of s a = Some ls →
  ∃ x s1, __getitem__ a idx s = (Ok x, s1) ∧ extends s s1 ∧
          trace s1 = trace s ∧ x ≠ a ∧ is_listener_array s1 x ∧
          listeners_ref s1 x = Some (S (length (lsts s))) ∧
          listeners_of s1 x = Some ls ∧
          value_at s1 x = Some (NdValue D0 [z]) ∧
          ∃ ax, objs s1 !! x = Some ax ∧ a_buf ax = length (bufs s).
Proof.
  intros (aa & l & ls' & d & Ha & Hc & Hl & Hls & Hd & Hw & H0) Hget Hlo.
  eexists _, _. split; [by eapply getitem_scalar_spec|].
  split; [apply extends_alloc|]. split; [done|].
  split; [apply lookup_lt_Some in Ha; lia|].
  assert (∀ A (xs : list A) p q, (xs ++ [p; q]) !! S (length xs) = Some q)
    as Hnew by (intros; apply lookup_snoc2_new).
  split; [|split; [|split; [|split]]].
  - eexists _, _, ls, [z]. cbn.
    split; [apply Hnew|]. cbn. split; [done|].
    split; [apply lookup_singleton_eq|]. split; [apply Hnew|].
    split; [apply lookup_snoc_new|]. split; [lia|done].
  - unfold listeners_ref. cbn. rewrite Hnew. cbn.
    by rewrite lookup_singleton_eq.
  - unfold listeners_of, listeners_ref. cbn. rewrite Hnew. cbn.
    rewrite lookup_singleton_eq. cbn. apply Hnew.
  - unfold value_at. cbn. rewrite Hnew. cbn. by rewrite lookup_snoc_new.
  - eexists. split; [apply Hnew|done].
Qed.

(** ** Frames and inversions *)

(** An inherited write through one array leaves alone every other array
    that looks into another buffer. *)
Lemma inherited_frame x m s s1 y ax ay :
  inherited x m s = (Ok tt, s1) →
  objs s !! x = Some ax → objs s !! y = Some ay →
  y ≠ x → a_buf ay ≠ a_buf ax →
  value_at s1 y = value_at s y ∧ listeners_of s1 y = listeners_of s y.
Proof.
  intros Hin Hx Hy Hne Hbuf.
  destruct (inherited_ok_inv _ _ _ _ Hin) as (a' & Ha' & Hcase).
  assert (a' = ax) as -> by congruence.
  destruct Hcase as [(d' & p & vs & Hd' & Hp & ->)|(name & v & -> & _ & ->)].
  - split; [|done]. unfold value_at. cbn. rewrite Hy. cbn.
    by rewrite list_lookup_insert_ne.
  - unfold value_at, listeners_of, listeners_ref. cbn.
    by rewrite list_lookup_insert_ne by done.
Qed.


Lemma inherited_keeps_dim x m s s1 v0 v1 :
  inherited x m s = (Ok tt, s1) →
  value_at s x = Some v0 → value_at s1 x = Some v1 → nd_dim v1 = nd_dim v0.
Proof.
  intros Hin.
  destruct (inherited_ok_inv _ _ _ _ Hin) as (a & Ha & Hcase).
  pose proof (lookup_lt_Some _ _ _ Ha) as Hlt.
  destruct Hcase as [(d' & p & vs & Hd' & Hp & ->)|(name & v & -> & _ & ->)];
    unfold value_at; cbn; rewrite Ha; cbn.
  - destruct (bufs s !! a_buf a); [|done]. intros [= <-].
    destruct (_ !! a_buf a); [|done]. by intros [= <-].
  - rewrite list_lookup_insert_eq by done. cbn.
    destruct (bufs s !! a_buf a); [|done]. by intros [= <-] [= <-].
Qed.

Lemma ndarray_itemset_single s x ax d w :
  objs s !! x = Some ax → a_len ax = 1 → bufs s !! a_buf ax = Some d →
  int64 w →
  ndarray_itemset x (ItemsetValue w) s =
    (Ok tt, State (<[a_buf ax := splice (a_off ax) [w] d]> (bufs s))
              (lsts s) (objs s) (trace s)).
Proof.
  intros Hx Hlen Hd Hw. unfold ndarray_itemset, bind, deref_obj. rewrite Hx.
  rewrite !decide_True by done. unfold deref_buf. by rewrite Hd.
Qed.

(** ** The sample store *)

Lemma vector_store_ok : is_listener_array vector_store 1.
Proof.
  exists vector_obj, 1, [w0], vector_data.
  repeat split; done.
Qed.

(** The run of the docstring example prints what the docstring shows. *)
Example docstring_scalar_trace :
  trace (docstring_scalar empty_state).2 =
    [Called w0 (NdValue D0 [-10]%Z);
     Called w0 (NdValue D0 [-5]%Z);
     Called w0 (NdValue D0 [0]%Z);
     Called w1 (NdValue D0 [0]%Z)].
Proof. by vm_compute. Qed.

(** An integer index outside the array makes the inherited writes raise
    [IndexError]. *)
Lemma out_of_range_raises s o a i r v :
  objs s !! o = Some a → a_nd a = D1 → adjust_index i (a_len a) = None →
  ndarray_setitem o (IInt i) r s = (Raise IndexError, s) ∧
  ndarray_itemset o (ItemsetAt i v) s = (Raise IndexError, s).
Proof.
  intros Ho Hnd Hi. split.
  - unfold ndarray_setitem, bind, deref_obj, target. by rewrite Ho, Hnd, Hi.
  - unfold ndarray_itemset, bind, deref_obj. by rewrite Ho, Hi.
Qed.

(** * The claims *)

(** C1, as stated, fails: after [b = a.copy()], the listener [w1]
    subscribed on [b] only is called by a write to [a], and the listener
    [w2] subscribed on [a] only is called by a write to [b]. *)
Lemma copy_subscription_reaches_original :
  ∃ a b s, copy_then_subscribe empty_state = (Ok (a, b), s) ∧ a ≠ b ∧
    (∃ s', __setitem__ a (IInt 0) (RScalar 9) s = (Ok tt, s') ∧
           calls_of w1 (new_events s s') = [NdValue D1 [9; 1]%Z]) ∧
    (∃ s', __setitem__ b (IInt 0) (RScalar 9) s = (Ok tt, s') ∧
           calls_of w2 (new_events s s') = [NdValue D1 [9; 1]%Z]).
Proof.
  exists 1, 2, (copy_then_subscribe empty_state).2.
  split; [by vm_compute|]. split; [done|]. split.
  - exists (__setitem__ 1 (IInt 0) (RScalar 9) (copy_then_subscribe empty_state).2).2.
    split; by vm_compute.
  - exists (__setitem__ 2 (IInt 0) (RScalar 9) (copy_then_subscribe empty_state).2).2.
    split; by vm_compute.
Qed.

(** C1, amended.  [a.copy()] is a new instance [b] with a buffer of its own
    holding the elements of [a], and with the very list object of [a] in
    [_listeners].  Hence a mutation of [b] calls the listeners registered
    before the copy and leaves the contents of [a] alone, and a listener
    subscribed after the copy, on [b] or on [a], is called by the next
    mutation of the other one. *)
Theorem copy_shares_listeners s a ls L2 :
  is_listener_array s a → listeners_of s a = Some ls →
  Forall returns (ls ++ [L2]) →
  ∃ b s1, copy a s = (Ok b, s1) ∧ b ≠ a ∧
    value_at s1 b = value_at s a ∧
    is_Some (listeners_ref s1 a) ∧
    listeners_ref s1 b = listeners_ref s1 a ∧
    (∀ m s2, on_data m → inherited b m s1 = (Ok tt, s2) →
       ∃ v s3, mutate b m s1 = (Ok tt, s3) ∧
               new_events s1 s3 = map (λ l, Called l v) ls ∧
               value_at s3 a = value_at s a) ∧
    (∃ s2, talk_to b L2 s1 = (Ok tt, s2) ∧
       ∀ m s3, on_data m → inherited a m s2 = (Ok tt, s3) →
         ∃ v s4, mutate a m s2 = (Ok tt, s4) ∧ value_at s4 a = Some v ∧
                 new_events s2 s4 = map (λ l, Called l v) (ls ++ [L2])) ∧
    (∃ s2, talk_to a L2 s1 = (Ok tt, s2) ∧
       ∀ m s3, on_data m → inherited b m s2 = (Ok tt, s3) →
         ∃ v s4, mutate b m s2 = (Ok tt, s4) ∧ value_at s4 b = Some v ∧
                 new_events s2 s4 = map (λ l, Called l v) (ls ++ [L2])).
Proof.
  intros Hwf Hls Hret.
  destruct (is_listener_array_ref _ _ Hwf) as (l & ls' & Hr & Hl).
  assert (ls' = ls) as ->.
  { rewrite (listeners_of_ref _ _ _ _ Hr Hl) in Hls. congruence. }
  destruct (copy_shares _ _ Hwf)
    as (b & s1 & Hcp & Hext & _ & Hne & Hwfb & Hrb & Hvb & ab & Hab & Hbb).
  pose proof (extends_listeners_ref _ _ _ _ Hext Hr) as Hr1.
  pose proof (extends_is_listener_array _ _ _ Hext Hwf) as Hwf1.
  assert (lsts s1 !! l = Some ls) as Hl1.
  { destruct Hext as (_ & (more & ->) & _). by apply lookup_app_l_Some. }
  rewrite Hr in Hrb.
  exists b, s1. rewrite Hrb, Hr1.
  split; [done|]. split; [done|]. split; [done|]. split; [by eauto|].
  split; [done|]. split; [|split].
  - intros m s2 Hm Hin.
    destruct (mutate_spec _ _ _ _ _ Hwfb Hm Hin (listeners_of_ref _ _ _ _ Hrb Hl1))
      as (v & s3 & _ & Hmut & Htr & Hext3).
    apply Forall_app in Hret as [Hret _].
    rewrite (notified_returns _ Hret) in Hmut, Htr. cbn in Hmut, Htr.
    exists v, s3. split; [done|]. split; [by apply new_events_app|].
    destruct (is_listener_array_value _ _ Hwf) as [va Hva]. rewrite Hva.
    apply (extends_value_at s2); [done|].
    destruct Hwf as (aa & _ & _ & d & Ha & _ & _ & _ & Hd & _).
    assert (objs s1 !! a = Some aa) as Haa
      by (destruct Hext as (_ & _ & more & ->); by apply lookup_app_l_Some).
    destruct (inherited_frame _ _ _ _ a ab aa Hin Hab Haa) as [Hfv _].
    + congruence.
    + apply lookup_lt_Some in Hd. lia.
    + rewrite Hfv. by eapply extends_value_at.
  - destruct (shared_subscription s1 b a l ls L2 Hwfb Hwf1 Hrb Hr1 Hl1 Hret)
      as (s2 & Htalk & _ & _ & _ & Hmut). by exists s2.
  - destruct (shared_subscription s1 a b l ls L2 Hwf1 Hwfb Hr1 Hrb Hl1 Hret)
      as (s2 & Htalk & _ & _ & _ & Hmut). by exists s2.
Qed.

Lemma copy_shares_listeners_witness :
  is_listener_array vector_store 1 ∧
  listeners_of vector_store 1 = Some [w0] ∧
  Forall returns ([w0] ++ [w1]) ∧
  ∃ b s1, copy 1 vector_store = (Ok b, s1) ∧ b ≠ 1 ∧
          listeners_ref s1 b = listeners_ref s1 1.
Proof.
  split; [exact vector_store_ok|]. split; [reflexivity|].
  split; [repeat constructor|].
  destruct (copy_shares_listeners vector_store 1 [w0] w1 vector_store_ok
              eq_refl ltac:(repeat constructor))
    as (b & s1 & Hcp & Hne & _ & _ & Hsh & _).
  exists b, s1. split; [exact Hcp|]. split; [exact Hne | exact Hsh].
Defined.

(** C2 (write-then-notify).  For an array of 64-bit integers in good
    standing whose listeners all return, a write [a[idx] = r] that NumPy
    accepts succeeds: the index, an integer in range or any slice or the
    whole array, addresses [n] elements from [start] on, and the right-hand
    side converts to the values [vs] for them (numbers the elements can
    hold; no sequence for a single element).  The array then holds its old
    contents overwritten by [vs] from [start] on, 64-bit integers again;
    every listener is called with exactly these contents, and a listener
    registered once is called exactly once.  (In Python 3 every item, slice
    and whole-array write goes through [__setitem__].) *)
Theorem setitem_writes_then_notifies s o a d idx r start n vs ls L :
  is_listener_array s o →
  objs s !! o = Some a → bufs s !! a_buf a = Some d → Forall int64 d →
  target a idx = Some (start, n) →
  broadcast (scalar_target a idx) r n = Values vs →
  listeners_of s o = Some ls → Forall returns ls →
  length (filter (λ l, l = L) ls) = 1 →
  ∃ s2, __setitem__ o idx r s = (Ok tt, s2) ∧
        value_at s2 o = Some (NdValue (a_nd a) (splice start vs (window a d))) ∧
        new_events s s2 =
          map (λ l, Called l (NdValue (a_nd a) (splice start vs (window a d)))) ls ∧
        calls_of L (new_events s s2) =
          [NdValue (a_nd a) (splice start vs (window a d))] ∧
        Forall int64 (splice start vs (window a d)).
Proof.
  intros Hwf Ha Hd Hd64 Ht Hb Hls Hret Honce.
  pose proof (ndarray_setitem_spec _ _ _ _ _ _ _ _ _ Ha Hd Ht Hb) as Hin.
  destruct (mutate_spec s o (SetItem idx r) _ ls Hwf I Hin Hls)
    as (v & s2 & Hv & Hmut & Htr & Hext).
  rewrite (notified_returns _ Hret) in Hmut, Htr. cbn in Hmut, Htr.
  assert (v = NdValue (a_nd a) (splice start vs (window a d))) as ->.
  { destruct Hwf as (a' & _ & _ & d' & Ha' & _ & _ & _ & Hd' & Hw & _).
    assert (a' = a) as -> by congruence. assert (d' = d) as -> by congruence.
    revert Hv. unfold value_at. cbn. rewrite Ha. cbn.
    rewrite list_lookup_insert_eq by (by eapply lookup_lt_Some). cbn.
    intros [= <-]. f_equal. apply window_splice; [done|].
    apply target_bounds in Ht. apply broadcast_length in Hb. lia. }
  exists s2. split; [done|]. split; [by eapply extends_value_at|].
  rewrite (new_events_app _ _ _ Htr). split; [done|].
  split; [by rewrite calls_of_map, Honce|].
  unfold splice, window. rewrite !Forall_app. split; [|split].
  - by apply Forall_take, Forall_take, Forall_drop.
  - by eapply broadcast_int64.
  - by apply Forall_drop, Forall_take, Forall_drop.
Qed.

Lemma vector_data_int64 : Forall int64 vector_data.
Proof. repeat constructor; by vm_compute. Qed.

Lemma setitem_writes_then_notifies_witness :
  (∃ s2, __setitem__ 1 (IInt 0) (RScalar 12) vector_store = (Ok tt, s2) ∧
         value_at s2 1 = Some (NdValue D1 [12; 1; 11]%Z) ∧
         new_events vector_store s2 = [Called w0 (NdValue D1 [12; 1; 11]%Z)] ∧
         calls_of w0 (new_events vector_store s2) = [NdValue D1 [12; 1; 11]%Z] ∧
         Forall int64 [12; 1; 11]%Z) ∧
  (∃ s2, __setitem__ 1 (ISlice None None) (RScalar 1) vector_store = (Ok tt, s2) ∧
         value_at s2 1 = Some (NdValue D1 [1; 1; 1]%Z) ∧
         new_events vector_store s2 = [Called w0 (NdValue D1 [1; 1; 1]%Z)] ∧
         calls_of w0 (new_events vector_store s2) = [NdValue D1 [1; 1; 1]%Z] ∧
         Forall int64 [1; 1; 1]%Z).
Proof.
  split.
  - apply (setitem_writes_then_notifies vector_store 1 vector_obj vector_data
             (IInt 0) (RScalar 12) 0 1 [12%Z] [w0] w0).
    + exact vector_store_ok.
    + reflexivity.
    + reflexivity.
    + exact vector_data_int64.
    + reflexivity.
    + reflexivity.
    + reflexivity.
    + repeat constructor.
    + reflexivity.
  - apply (setitem_writes_then_notifies vector_store 1 vector_obj vector_data
             (ISlice None None) (RScalar 1) 0 3 [1; 1; 1]%Z [w0] w0).
    + exact vector_store_ok.
    + reflexivity.
    + reflexivity.
    + exact vector_data_int64.
    + reflexivity.
    + reflexivity.
    + reflexivity.
    + repeat constructor.
    + reflexivity.
Defined.

(** C3 (sharing by reference).  The instance the constructor builds from an
    instance, the view a read returns and the copy NumPy makes all hold in
    [_listeners] the very list object of their source.  Hence, for a view
    [v] of [a]: a listener subscribed through [a] is called by the next
    mutation of [v], and a listener subscribed through [v] is called by the
    next mutation of [a]. *)
Theorem derived_arrays_share_listeners s a aa idx start n ls L :
  is_listener_array s a → objs s !! a = Some aa →
  target aa idx = Some (start, n) → view_index aa idx →
  listeners_of s a = Some ls → Forall returns (ls ++ [L]) →
  (∃ o s1, __new__ (InArr a) s = (Ok o, s1) ∧ o ≠ a ∧
           is_Some (listeners_ref s1 a) ∧
           listeners_ref s1 o = listeners_ref s1 a) ∧
  (∃ b s1, copy a s = (Ok b, s1) ∧ b ≠ a ∧
           is_Some (listeners_ref s1 a) ∧
           listeners_ref s1 b = listeners_ref s1 a) ∧
  ∃ v s1, __getitem__ a idx s = (Ok v, s1) ∧ v ≠ a ∧
          is_Some (listeners_ref s1 a) ∧
          listeners_ref s1 v = listeners_ref s1 a ∧
          (∃ s2, talk_to a L s1 = (Ok tt, s2) ∧
             ∀ m s3, on_data m → inherited v m s2 = (Ok tt, s3) →
               ∃ val s4, mutate v m s2 = (Ok tt, s4) ∧
                         value_at s4 v = Some val ∧
                         new_events s2 s4 = map (λ l, Called l val) (ls ++ [L])) ∧
          (∃ s2, talk_to v L s1 = (Ok tt, s2) ∧
             ∀ m s3, on_data m → inherited a m s2 = (Ok tt, s3) →
               ∃ val s4, mutate a m s2 = (Ok tt, s4) ∧
                         value_at s4 a = Some val ∧
                         new_events s2 s4 = map (λ l, Called l val) (ls ++ [L])).
Proof.
  intros Hwf Haa Ht Hv Hls Hret.
  destruct (is_listener_array_ref _ _ Hwf) as (l & ls' & Hr & Hl).
  assert (ls' = ls) as ->.
  { rewrite (listeners_of_ref _ _ _ _ Hr Hl) in Hls. congruence. }
  split; [|split].
  - destruct (new_array_shares _ _ Hwf) as (o & s1 & Hnew & Hext & _ & Hne & _ & Hro & _).
    exists o, s1. rewrite Hro, (extends_listeners_ref _ _ _ _ Hext Hr), Hr.
    by eauto.
  - destruct (copy_shares _ _ Hwf) as (b & s1 & Hcp & Hext & _ & Hne & _ & Hrb & _).
    exists b, s1. rewrite Hrb, (extends_listeners_ref _ _ _ _ Hext Hr), Hr.
    by eauto.
  - destruct (view_shares _ _ _ _ _ _ Hwf Haa Ht Hv)
      as (v & s1 & Hget & Hext & _ & Hne & Hwfv & Hrv).
    pose proof (extends_listeners_ref _ _ _ _ Hext Hr) as Hr1.
    pose proof (extends_is_listener_array _ _ _ Hext Hwf) as Hwf1.
    assert (lsts s1 !! l = Some ls) as Hl1.
    { destruct Hext as (_ & (more & ->) & _). by apply lookup_app_l_Some. }
    rewrite Hr in Hrv.
    exists v, s1. rewrite Hrv, Hr1.
    split; [done|]. split; [done|]. split; [by eauto|]. split; [done|]. split.
    + destruct (shared_subscription s1 a v l ls L Hwf1 Hwfv Hr1 Hrv Hl1 Hret)
        as (s2 & Htalk & _ & _ & _ & Hmut). by exists s2.
    + destruct (shared_subscription s1 v a l ls L Hwfv Hwf1 Hrv Hr1 Hl1 Hret)
        as (s2 & Htalk & _ & _ & _ & Hmut). by exists s2.
Qed.

Lemma derived_arrays_share_listeners_witness :
  is_listener_array vector_store 1 ∧
  target vector_obj (ISlice None None) = Some (0, 3) ∧
  view_index vector_obj (ISlice None None) ∧
  ∃ v s1, __getitem__ 1 (ISlice None None) vector_store = (Ok v, s1) ∧
          v ≠ 1 ∧ listeners_ref s1 v = listeners_ref s1 1.
Proof.
  split; [exact vector_store_ok|]. split; [reflexivity|]. split; [exact I|].
  destruct (derived_arrays_share_listeners vector_store 1 vector_obj
              (ISlice None None) 0 3 [w0] w1 vector_store_ok eq_refl eq_refl I
              eq_refl ltac:(repeat constructor))
    as (_ & _ & v & s1 & Hget & Hne & _ & Hsh & _).
  exists v, s1. split; [exact Hget|]. split; [exact Hne | exact Hsh].
Defined.

(** C4 (scalar extraction duplicates the listeners).  When the inherited
    read returns a bare scalar [z], [__getitem__] returns a new
    zero-dimensional instance holding [z] whose list has the entries of the
    list of the array but is another list object.  Hence a mutation of the
    new instance calls these listeners, while a listener subscribed on the
    new instance afterwards is not called by a mutation of the array. *)
Theorem scalar_extraction_copies_listeners s a idx z s' ls L2 :
  is_listener_array s a →
  ndarray_getitem a idx s = (Ok (ItemScalar z), s') →
  listeners_of s a = Some ls → Forall returns ls → L2 ∉ ls →
  ∃ x s1, __getitem__ a idx s = (Ok x, s1) ∧ x ≠ a ∧
    is_listener_array s1 x ∧ value_at s1 x = Some (NdValue D0 [z]) ∧
    listeners_of s1 x = Some ls ∧ listeners_of s1 a = Some ls ∧
    listeners_ref s1 x ≠ listeners_ref s1 a ∧
    (∀ m s2, on_data m → inherited x m s1 = (Ok tt, s2) →
       ∃ v s3, mutate x m s1 = (Ok tt, s3) ∧
               new_events s1 s3 = map (λ l, Called l v) ls) ∧
    ∃ s2, talk_to x L2 s1 = (Ok tt, s2) ∧
          listeners_of s2 x = Some (ls ++ [L2]) ∧
          listeners_of s2 a = Some ls ∧
          ∀ m s3, on_data m → inherited a m s2 = (Ok tt, s3) →
            ∃ v s4, mutate a m s2 = (Ok tt, s4) ∧
                    new_events s2 s4 = map (λ l, Called l v) ls ∧
                    calls_of L2 (new_events s2 s4) = [].
Proof.
  intros Hwf Hget Hls Hret Hnot.
  destruct (scalar_extraction _ _ _ _ _ _ Hwf Hget Hls)
    as (x & s1 & Hgi & Hext & _ & Hne & Hwfx & Hrx & Hlx & Hvx & _).
  destruct (is_listener_array_ref _ _ Hwf) as (l & ls' & Hr & Hl).
  pose proof (extends_listeners_ref _ _ _ _ Hext Hr) as Hr1.
  pose proof (extends_listeners_of _ _ _ _ Hext Hls) as Hls1.
  pose proof (extends_is_listener_array _ _ _ Hext Hwf) as Hwf1.
  assert (l ≠ S (length (lsts s))) as Hll
    by (apply lookup_lt_Some in Hl; lia).
  exists x, s1. do 6 (split; [done|]).
  split; [rewrite Hrx, Hr1; congruence|]. split.
  - intros m s2 Hm Hin.
    destruct (mutate_spec _ _ _ _ _ Hwfx Hm Hin Hlx)
      as (v & s3 & _ & Hmut & Htr & _).
    rewrite (notified_returns _ Hret) in Hmut, Htr. cbn in Hmut, Htr.
    exists v, s3. split; [done|]. by apply new_events_app.
  - assert (lsts s1 !! S (length (lsts s)) = Some ls) as Hlx1.
    { revert Hlx. unfold listeners_of. by rewrite Hrx. }
    eexists. split; [by apply talk_to_spec|].
    set (s2 := State _ _ _ _).
    assert (listeners_of s2 a = Some ls) as Hls2.
    { rewrite <- Hls1. by eapply update_listeners_of_other. }
    split; [by eapply update_listeners_of_same|]. split; [done|].
    intros m s3 Hm Hin.
    assert (is_listener_array s2 a) as Hwf2
      by (by eapply update_is_listener_array).
    destruct (mutate_spec _ _ _ _ _ Hwf2 Hm Hin Hls2)
      as (v & s4 & _ & Hmut & Htr & _).
    rewrite (notified_returns _ Hret) in Hmut, Htr. cbn in Hmut, Htr.
    exists v, s4. split; [done|]. rewrite (new_events_app s2 _ _ Htr).
    split; [done|]. by apply calls_of_absent.
Qed.

Lemma scalar_extraction_copies_listeners_witness :
  is_listener_array vector_store 1 ∧
  ndarray_getitem 1 (IInt 0) vector_store = (Ok (ItemScalar (-5)), vector_store) ∧
  ∃ x s1, __getitem__ 1 (IInt 0) vector_store = (Ok x, s1) ∧
          value_at s1 x = Some (NdValue D0 [-5]%Z) ∧
          listeners_of s1 x = Some [w0] ∧
          listeners_ref s1 x ≠ listeners_ref s1 1.
Proof.
  split; [exact vector_store_ok|]. split; [reflexivity|].
  assert (w1 ∉ [w0]) as Hnot.
  { intros H. apply list_elem_of_singleton in H. discriminate. }
  destruct (scalar_extraction_copies_listeners vector_store 1 (IInt 0) (-5)
              vector_store [w0] w1 vector_store_ok eq_refl eq_refl
              ltac:(repeat constructor) Hnot)
    as (x & s1 & Hget & _ & _ & Hv & Hl & _ & Hne & _).
  exists x, s1. split; [exact Hget|]. split; [exact Hv|].
  split; [exact Hl | exact Hne].
Defined.

(** C5 (no spurious notification).  From every store and whatever the
    arguments and the outcome are, the constructor, a read (by index or by
    slice), a subscription and a copy add no event to the trace: they call
    no registered object.  Only the methods that end in [__notify] can. *)
Theorem no_spurious_notification :
  (∀ x s, trace (__new__ x s).2 = trace s) ∧
  (∀ o idx s, trace (__getitem__ o idx s).2 = trace s) ∧
  (∀ o me s, trace (talk_to o me s).2 = trace s) ∧
  (∀ o s, trace (copy o s).2 = trace s).
Proof.
  split; [|split; [|split]].
  - intros x. apply silent_new.
  - intros o idx. apply silent_getitem.
  - intros o me. apply silent_talk_to.
  - intros o. apply silent_ndarray_copy.
Qed.



(** C7 (insertion order, no deduplication).  A subscription appends to the
    end of the list, also when the object is in the list already.  A
    notification, reached through any mutating method on an array in good
    standing whose listeners all return, calls the entries of the list one
    after the other in the order of the list, each with the contents of the
    array after the write as its argument; an object that is in the list
    [k] times is called [k] times. *)
Theorem notify_in_insertion_order s o m s1 ls me L :
  is_listener_array s o → listeners_of s o = Some ls →
  on_data m → inherited o m s = (Ok tt, s1) → Forall returns ls →
  (∃ s', talk_to o me s = (Ok tt, s') ∧
         listeners_of s' o = Some (ls ++ [me])) ∧
  ∃ v s2, mutate o m s = (Ok tt, s2) ∧ value_at s2 o = Some v ∧
          new_events s s2 = map (λ l, Called l v) ls ∧
          calls_of L (new_events s s2) =
            replicate (length (filter (λ l, l = L) ls)) v.
Proof.
  intros Hwf Hls Hm Hin Hret. split.
  - destruct (is_listener_array_ref _ _ Hwf) as (l & ls' & Hr & Hl).
    assert (ls' = ls) as ->.
    { rewrite (listeners_of_ref _ _ _ _ Hr Hl) in Hls. congruence. }
    eexists. split; [by apply talk_to_spec|].
    by eapply update_listeners_of_same.
  - destruct (mutate_spec _ _ _ _ _ Hwf Hm Hin Hls)
      as (v & s2 & Hv & Hmut & Htr & Hext).
    rewrite (notified_returns _ Hret) in Hmut, Htr. cbn in Hmut, Htr.
    exists v, s2. split; [done|]. split; [by eapply extends_value_at|].
    rewrite (new_events_app _ _ _ Htr). split; [done|]. apply calls_of_map.
Qed.

Lemma twice_store_ok : is_listener_array twice_store 1.
Proof.
  exists vector_obj, 1, [w0; w1; w0], vector_data. repeat split; done.
Qed.

Lemma notify_in_insertion_order_witness :
  is_listener_array twice_store 1 ∧
  listeners_of twice_store 1 = Some [w0; w1; w0] ∧
  (∃ s', talk_to 1 w1 twice_store = (Ok tt, s') ∧
         listeners_of s' 1 = Some ([w0; w1; w0] ++ [w1])) ∧
  ∃ v s2, mutate 1 (SetItem (IInt 0) (RScalar 12)) twice_store = (Ok tt, s2) ∧
          value_at s2 1 = Some v ∧
          new_events twice_store s2 = [Called w0 v; Called w1 v; Called w0 v] ∧
          calls_of w0 (new_events twice_store s2) = [v; v] ∧
          calls_of w1 (new_events twice_store s2) = [v].
Proof.
  split; [exact twice_store_ok|]. split; [reflexivity|].
  assert (inherited 1 (SetItem (IInt 0) (RScalar 12)) twice_store =
          (Ok tt, (inherited 1 (SetItem (IInt 0) (RScalar 12)) twice_store).2))
    as Hin by (by vm_compute).
  assert (Forall returns [w0; w1; w0]) as Hret by (repeat constructor).
  destruct (notify_in_insertion_order twice_store 1
              (SetItem (IInt 0) (RScalar 12)) _ [w0; w1; w0] w1 w0
              twice_store_ok eq_refl I Hin Hret)
    as (Htalk & v & s2 & Hmut & Hv & Hev & Hc0).
  destruct (notify_in_insertion_order twice_store 1
              (SetItem (IInt 0) (RScalar 12)) _ [w0; w1; w0] w1 w1
              twice_store_ok eq_refl I Hin Hret)
    as (_ & v' & s2' & Hmut' & Hv' & _ & Hc1).
  split; [exact Htalk|].
  rewrite Hmut in Hmut'. injection Hmut' as <-.
  rewrite Hv in Hv'. injection Hv' as <-.
  exists v, s2. split; [exact Hmut|]. split; [exact Hv|].
  split; [exact Hev|]. split; [exact Hc0 | exact Hc1].
Defined.

(** C8 (failed write).  When the inherited write of a mutating method
    raises (an index out of range, a right-hand side that does not fit),
    the method raises the same exception, the store is the one before the
    call, and no registered object has been called. *)
Theorem failed_write_never_notifies o m s e s1 :
  inherited o m s = (Raise e, s1) →
  mutate o m s = (Raise e, s1) ∧ s1 = s ∧ new_events s s1 = [].
Proof.
  intros Hin. pose proof (inherited_raise_inv _ _ _ _ _ Hin) as ->.
  split; [by eapply mutate_raise|]. split; [done|]. by apply new_events_same.
Qed.

Lemma failed_write_never_notifies_witness :
  inherited 1 (SetItem (IInt 5) (RScalar 0)) vector_store =
    (Raise IndexError, vector_store) ∧
  mutate 1 (SetItem (IInt 5) (RScalar 0)) vector_store =
    (Raise IndexError, vector_store) ∧
  new_events vector_store vector_store = [].
Proof.
  split; [reflexivity|].
  destruct (failed_write_never_notifies 1 (SetItem (IInt 5) (RScalar 0))
              vector_store IndexError vector_store eq_refl)
    as (Hmut & _ & Hev).
  split; [exact Hmut | exact Hev].
Defined.

(** C9 (no validation at subscription).  Subscribing an object that is not
    callable succeeds and calls nothing.  The failure comes with the next
    notification: when the listeners subscribed before it all return, every
    later mutating method whose inherited write succeeds calls those
    listeners and then raises [TypeError]. *)
Theorem non_callable_fails_at_notification s o ls me :
  is_listener_array s o → listeners_of s o = Some ls →
  ob_call me = NotCallable → Forall returns ls →
  ∃ s1, talk_to o me s = (Ok tt, s1) ∧ new_events s s1 = [] ∧
        listeners_of s1 o = Some (ls ++ [me]) ∧
        ∀ m s2, on_data m → inherited o m s1 = (Ok tt, s2) →
          ∃ v s3, mutate o m s1 = (Raise TypeError, s3) ∧
                  value_at s3 o = Some v ∧
                  new_events s1 s3 = map (λ l, Called l v) ls.
Proof.
  intros Hwf Hls Hme Hret.
  destruct (is_listener_array_ref _ _ Hwf) as (l & ls' & Hr & Hl).
  assert (ls' = ls) as ->.
  { rewrite (listeners_of_ref _ _ _ _ Hr Hl) in Hls. congruence. }
  eexists. split; [by apply talk_to_spec|].
  set (s1 := State _ _ _ _).
  assert (listeners_of s1 o = Some (ls ++ [me])) as Hls1
    by (by eapply update_listeners_of_same).
  split; [by apply new_events_same|]. split; [done|].
  intros m s2 Hm Hin.
  assert (is_listener_array s1 o) as Hwf1 by (by eapply update_is_listener_array).
  destruct (mutate_spec _ _ _ _ _ Hwf1 Hm Hin Hls1)
    as (v & s3 & Hv & Hmut & Htr & Hext).
  rewrite (notified_stops _ _ [] Hret Hme) in Hmut, Htr. cbn in Hmut, Htr.
  exists v, s3. split; [done|]. split; [by eapply extends_value_at|].
  by apply new_events_app.
Qed.

Lemma non_callable_fails_at_notification_witness :
  is_listener_array vector_store 1 ∧ ob_call junk = NotCallable ∧
  ∃ s1, talk_to 1 junk vector_store = (Ok tt, s1) ∧
        new_events vector_store s1 = [] ∧
        listeners_of s1 1 = Some [w0; junk].
Proof.
  split; [exact vector_store_ok|]. split; [reflexivity|].
  destruct (non_callable_fails_at_notification vector_store 1 [w0] junk
              vector_store_ok eq_refl eq_refl ltac:(repeat constructor))
    as (s1 & Htalk & Hev & Hl & _).
  exists s1. split; [exact Htalk|]. split; [exact Hev | exact Hl].
Defined.

(** C10 (the extracted scalar is a world of its own).  Let [x] be the
    instance a scalar read of an array [a] of 64-bit integers has returned.
    A mutation of [x] (an item write, [itemset], or an assignment to an
    attribute that is stored on the instance) calls the listeners copied at
    the extraction with the zero-dimensional contents of [x] after the
    write; the contents of [a] and the listeners of [a] are what they were.
    In particular [x.itemset(w)], for a number [w] the elements can hold,
    succeeds and passes the zero-dimensional value [w].  (Assignments to
    attributes of the type, such as [shape], are outside the modelled
    fragment: they are no instance of [inherited x m s1 = (Ok tt, s2)].) *)
Theorem mutating_extracted_scalar_leaves_array s a idx z s' ls :
  is_listener_array s a →
  ndarray_getitem a idx s = (Ok (ItemScalar z), s') → int64 z →
  listeners_of s a = Some ls → Forall returns ls →
  ∃ x s1, __getitem__ a idx s = (Ok x, s1) ∧
    (∀ m s2, on_data m → inherited x m s1 = (Ok tt, s2) →
       ∃ v s3, mutate x m s1 = (Ok tt, s3) ∧
               value_at s3 x = Some v ∧ nd_dim v = D0 ∧
               new_events s1 s3 = map (λ l, Called l v) ls ∧
               value_at s3 a = value_at s a ∧
               listeners_of s3 a = Some ls) ∧
    (∀ w, int64 w →
       ∃ s3, itemset x (ItemsetValue w) s1 = (Ok tt, s3) ∧
             value_at s3 x = Some (NdValue D0 [w]) ∧
             new_events s1 s3 = map (λ l, Called l (NdValue D0 [w])) ls ∧
             value_at s3 a = value_at s a ∧
             listeners_of s3 a = Some ls).
Proof.
  intros Hwf Hget _ Hls Hret.
  destruct (scalar_extraction _ _ _ _ _ _ Hwf Hget Hls)
    as (x & s1 & Hgi & Hext & _ & Hne & Hwfx & Hrx & Hlx & Hvx & ax & Hax & Hbx).
  destruct (is_listener_array_value _ _ Hwf) as [va Hva].
  pose proof (extends_value_at _ _ _ _ Hext Hva) as Hva1.
  pose proof (extends_listeners_of _ _ _ _ Hext Hls) as Hls1.
  assert (∃ aa, objs s1 !! a = Some aa ∧ a_buf aa ≠ a_buf ax) as (aa & Haa & Hbuf).
  { destruct Hwf as (aa & _ & _ & d & Ha & _ & _ & _ & Hd & _).
    exists aa. split.
    - destruct Hext as (_ & _ & more & ->). by apply lookup_app_l_Some.
    - apply lookup_lt_Some in Hd. lia. }
  assert (∀ m s2, on_data m → inherited x m s1 = (Ok tt, s2) →
    ∃ v s3, value_at s2 x = Some v ∧ mutate x m s1 = (Ok tt, s3) ∧
            value_at s3 x = Some v ∧ nd_dim v = D0 ∧
            new_events s1 s3 = map (λ l, Called l v) ls ∧
            value_at s3 a = value_at s a ∧
            listeners_of s3 a = Some ls) as Hgen.
  { intros m s2 Hm Hin.
    destruct (mutate_spec _ _ _ _ _ Hwfx Hm Hin Hlx)
      as (v & s3 & Hv & Hmut & Htr & Hext3).
    rewrite (notified_returns _ Hret) in Hmut, Htr. cbn in Hmut, Htr.
    destruct (inherited_frame _ _ _ _ a ax aa Hin Hax Haa) as [Hfv Hfl];
      [congruence | done |].
    rewrite Hva1 in Hfv. rewrite Hls1 in Hfl.
    exists v, s3. split; [done|]. split; [done|].
    split; [by eapply extends_value_at|].
    split; [exact (inherited_keeps_dim _ _ _ _ _ _ Hin Hvx Hv)|].
    split; [by apply new_events_app|].
    split; [rewrite Hva; by eapply extends_value_at|].
    by eapply extends_listeners_of. }
  exists x, s1. split; [done|]. split.
  - intros m s2 Hm Hin.
    destruct (Hgen m s2 Hm Hin) as (v & s3 & _ & H). by exists v, s3.
  - intros w Hw64.
    destruct Hwfx as (ax' & lx & lsx & dx & Hax' & _ & _ & _ & Hdx & Hwx & H0x).
    assert (ax' = ax) as -> by congruence.
    assert (a_nd ax = D0 ∧ window ax dx = [z]) as [Hnd Hwin].
    { revert Hvx. unfold value_at. rewrite Hax. cbn. rewrite Hdx. cbn.
      by intros [= -> ->]. }
    pose proof (H0x Hnd) as Hlen.
    pose proof (ndarray_itemset_single _ _ _ _ w Hax Hlen Hdx Hw64) as Hin.
    destruct (Hgen (ItemSet (ItemsetValue w)) _ I Hin)
      as (v & s3 & Hv & Hmut & Hv3 & _ & Hev & Hfa & Hfl).
    assert (v = NdValue D0 [w]) as ->.
    { revert Hv. unfold value_at. cbn. rewrite Hax. cbn.
      rewrite list_lookup_insert_eq by (by eapply lookup_lt_Some). cbn.
      intros [= <-]. rewrite Hnd. f_equal.
      replace (a_off ax) with (a_off ax + 0) at 1 by lia.
      rewrite window_splice by (cbn; lia). by rewrite Hwin. }
    by exists s3.
Qed.

Lemma mutating_extracted_scalar_leaves_array_witness :
  is_listener_array vector_store 1 ∧
  ndarray_getitem 1 (IInt 0) vector_store = (Ok (ItemScalar (-5)), vector_store) ∧
  ∃ x s1 s3, __getitem__ 1 (IInt 0) vector_store = (Ok x, s1) ∧
             itemset x (ItemsetValue 3) s1 = (Ok tt, s3) ∧
             new_events s1 s3 = [Called w0 (NdValue D0 [3]%Z)] ∧
             value_at s3 1 = value_at vector_store 1.
Proof.
  split; [exact vector_store_ok|]. split; [reflexivity|].
  assert (int64 (-5)) as H5 by (by vm_compute).
  assert (int64 3) as H3 by (by vm_compute).
  destruct (mutating_extracted_scalar_leaves_array vector_store 1 (IInt 0) (-5)
              vector_store [w0] vector_store_ok eq_refl H5 eq_refl
              ltac:(repeat constructor))
    as (x & s1 & Hget & _ & Hset).
  destruct (Hset 3%Z H3) as (s3 & Hit & _ & Hev & Hva & _).
  exists x, s1, s3. split; [exact Hget|]. split; [exact Hit|].
  split; [exact Hev | exact Hva].
Defined.

(** * Further properties of the class *)

(** ** Construction *)

Lemma fresh_instance_unobserved s x d nd :
  __new__ x s =
    (Ok (S (length (objs s))),
     State (bufs s ++ [d]) (lsts s ++ [[]; []])
       (objs s ++ [Arr Ndarray (length (bufs s)) 0 (length d) nd ∅;
                   Arr NdarrayListener (length (bufs s)) 0 (length d) nd
                     {["_listeners"%string := PList (S (length (lsts s)))]}])
       (trace s)) →
  (nd = D0 → length d = 1) →
  constructs_unobserved s x (NdValue nd d).
Proof.
  intros Hnew H0.
  eexists _, _. split; [exact Hnew|]. split; [apply extends_alloc|].
  split; [done|]. split; [|split; [|split]].
  - eexists _, _, [], d. cbn.
    split; [apply lookup_snoc2_new|]. cbn. split; [done|].
    split; [apply lookup_singleton_eq|]. split; [apply lookup_snoc2_new|].
    split; [apply lookup_snoc_new|]. split; [lia|done].
  - unfold listeners_of, listeners_ref. cbn. rewrite lookup_snoc2_new. cbn.
    rewrite lookup_singleton_eq. cbn. apply lookup_snoc2_new.
  - unfold value_at. cbn. rewrite lookup_snoc2_new. cbn.
    rewrite lookup_snoc_new. cbn. unfold window. cbn [a_len a_off drop].
    by rewrite firstn_all.
  - intros y Hy.
    destruct (is_listener_array_ref _ _ Hy) as (l & ls & Hr & Hl).
    erewrite (extends_listeners_ref s _ y l); [|apply extends_alloc|done].
    unfold listeners_ref. cbn. rewrite lookup_snoc2_new. cbn.
    rewrite lookup_singleton_eq. cbn.
    apply lookup_lt_Some in Hl. intros [= ->]. lia.
Qed.

(** X1.  The constructor applied to a scalar or to a sequence never fails,
    from any store: it returns a new instance in good standing that holds
    the given numbers (zero-dimensional for a scalar), whose list of
    listeners is empty and is held by no instance that existed before; it
    calls nothing and changes nothing that existed. *)
Theorem new_from_values_starts_empty s :
  (∀ z, constructs_unobserved s (InScalar z) (NdValue D0 [z])) ∧
  (∀ xs, constructs_unobserved s (InSeq xs) (NdValue D1 xs)).
Proof.
  split.
  - intros z. apply fresh_instance_unobserved; [apply new_scalar_spec|done].
  - intros xs. apply fresh_instance_unobserved; [apply new_seq_spec|done].
Qed.

(** The constructor applied to a base-class array: no new buffer; the new
    instance is a view of the array with a list of its own. *)
Lemma new_base_array_spec s p a :
  objs s !! p = Some a → a_cls a = Ndarray →
  a_dict a !! "_listeners"%string = None →
  __new__ (InArr p) s =
    (Ok (length (objs s)),
     State (bufs s) (lsts s ++ [[]; []])
       (objs s ++ [Arr NdarrayListener (a_buf a) (a_off a) (a_len a) (a_nd a)
                     {["_listeners"%string := PList (S (length (lsts s)))]}])
       (trace s)).
Proof.
  intros Hp Hc Hno.
  unfold __new__, bind at 1, asarray, bind at 1, deref_obj. rewrite Hp, Hc.
  unfold ret at 1.
  unfold bind at 1, ndarray_view, bind at 1, deref_obj. rewrite Hp.
  erewrite derive_listener_spec by exact Hp. rewrite Hno. cbn [default from_option].
  unfold bind at 1, hasattr, bind at 1, deref_obj. cbn [objs bufs lsts trace].
  rewrite (lookup_app_l_Some _ _ _ _ Hp). unfold ret at 1. rewrite Hno.
  rewrite bool_decide_eq_false_2 by (by intros [? ?]).
  unfold bind at 1 2, new_list. cbn [objs bufs lsts trace].
  erewrite setattr_listeners_spec; [|apply lookup_snoc_new|done].
  cbn [objs bufs lsts trace]. unfold set_dict.
  cbn [a_cls a_buf a_off a_len a_nd a_dict].
  rewrite insert_snoc_new, insert_singleton_eq.
  rewrite !length_app. cbn [length]. rewrite !Nat.add_1_r, <- !app_assoc.
  done.
Qed.

(** ** Aliasing of data *)

Lemma same_window_value s (x y : loc) ax ay :
  objs s !! x = Some ax → objs s !! y = Some ay → same_window ax ay →
  value_at s x = value_at s y.
Proof.
  intros Hx Hy (Hb & Ho & Hl & Hn). unfold value_at, window.
  rewrite Hx, Hy. cbn. by rewrite Hb, Ho, Hl, Hn.
Qed.

(** An inherited write changes the window of no array object. *)
Lemma inherited_keeps_window (x : loc) m s s1 (y : loc) ay :
  inherited x m s = (Ok tt, s1) → objs s !! y = Some ay →
  ∃ ay', objs s1 !! y = Some ay' ∧ same_window ay' ay.
Proof.
  intros Hin Hy.
  destruct (inherited_ok_inv _ _ _ _ Hin) as (a & Ha & Hcase).
  destruct Hcase as [(d' & p & vs & Hd' & Hp & ->)|(name & v & -> & _ & ->)]; cbn.
  - by exists ay.
  - destruct (decide (y = x)) as [->|Hne].
    + assert (ay = a) as -> by congruence.
      eexists. split; [apply list_lookup_insert_eq; by eapply lookup_lt_Some|].
      done.
    + exists ay. by rewrite list_lookup_insert_ne.
Qed.

Lemma extends_objs s s' (y : loc) ay :
  extends s s' → objs s !! y = Some ay → objs s' !! y = Some ay.
Proof. intros (_ & _ & more & ->). apply lookup_app_l_Some. Qed.

(** Two arrays on the same window see the same contents after any mutating
    method applied to one of them. *)
Lemma alias_after_mutation s (x y : loc) ax ay m s1 ls :
  is_listener_array s x → objs s !! x = Some ax → objs s !! y = Some ay →
  same_window ax ay → on_data m → inherited x m s = (Ok tt, s1) →
  listeners_of s x = Some ls →
  ∃ v s2, mutate x m s = (finish (notified ls).2, s2) ∧
          new_events s s2 = map (λ l, Called l v) (notified ls).1 ∧
          value_at s2 x = Some v ∧ value_at s2 y = Some v.
Proof.
  intros Hwf Hx Hy Hsame Hm Hin Hls.
  destruct (mutate_spec _ _ _ _ _ Hwf Hm Hin Hls)
    as (v & s2 & Hv & Hmut & Htr & Hext).
  destruct (inherited_keeps_window _ _ _ _ x ax Hin Hx) as (ax' & Hx' & Hsx).
  destruct (inherited_keeps_window _ _ _ _ y ay Hin Hy) as (ay' & Hy' & Hsy).
  assert (same_window ax' ay') as Hs'.
  { destruct Hsame as (? & ? & ? & ?), Hsx as (? & ? & ? & ?),
      Hsy as (? & ? & ? & ?). repeat split; congruence. }
  exists v, s2. split; [done|]. split; [by apply new_events_app|].
  split; [by eapply extends_value_at|].
  eapply extends_value_at; [done|].
  by rewrite <- (same_window_value s1 x y ax' ay').
Qed.

(** X2.  The constructor applied to a base-class array makes no copy of
    the data: it returns a new instance in good standing, with an empty
    list of listeners, that looks at the very window of the array.  Its
    contents are those of the array, and after every mutating method
    applied to the instance the array holds what the instance holds. *)
Theorem wrapping_base_array_aliases_data s (p : loc) :
  is_base_array s p →
  ∃ o s1, __new__ (InArr p) s = (Ok o, s1) ∧ trace s1 = trace s ∧
          bufs s1 = bufs s ∧ is_listener_array s1 o ∧
          listeners_of s1 o = Some [] ∧ value_at s1 o = value_at s p ∧
          ∀ m s2, on_data m → inherited o m s1 = (Ok tt, s2) →
            ∃ v s3, mutate o m s1 = (Ok tt, s3) ∧ new_events s1 s3 = [] ∧
                    value_at s3 o = Some v ∧ value_at s3 p = Some v.
Proof.
  intros (a & d & Hp & Hc & Hno & Hd & Hw & H0).
  eexists _, _. split; [by apply new_base_array_spec|].
  set (s1 := State _ _ _ _). set (o := length (objs s)).
  assert (is_listener_array s1 o) as Hwf.
  { eexists _, _, [], d. subst s1 o. cbn.
    split; [apply lookup_snoc_new|]. cbn. split; [done|].
    split; [apply lookup_singleton_eq|]. split; [apply lookup_snoc2_new|].
    done. }
  assert (listeners_of s1 o = Some []) as Hls.
  { unfold listeners_of, listeners_ref. subst s1 o. cbn.
    rewrite lookup_snoc_new. cbn. rewrite lookup_singleton_eq. cbn.
    apply lookup_snoc2_new. }
  assert (objs s1 !! o = Some (Arr NdarrayListener (a_buf a) (a_off a) (a_len a)
            (a_nd a) {["_listeners"%string := PList (S (length (lsts s)))]}))
    as Ho by apply lookup_snoc_new.
  assert (objs s1 !! p = Some a) as Hp1 by (by apply lookup_app_l_Some).
  split; [done|]. split; [done|]. split; [done|]. split; [done|]. split.
  - rewrite (same_window_value s1 o p _ _ Ho Hp1) by done.
    unfold value_at. rewrite Hp1, Hp. reflexivity.
  - intros m s2 Hm Hin.
    destruct (alias_after_mutation s1 o p _ _ m s2 [] Hwf Ho Hp1
                ltac:(done) Hm Hin Hls) as (v & s3 & Hmut & Hev & Hvo & Hvp).
    by exists v, s3.
Qed.

Lemma base_store_ok : is_base_array base_store 0.
Proof. exists (Arr Ndarray 0 0 3 D1 ∅), [4; 5; 6]%Z. repeat split; done. Qed.

Lemma wrapping_base_array_aliases_data_witness :
  is_base_array base_store 0 ∧
  ∃ o s1, __new__ (InArr 0) base_store = (Ok o, s1) ∧
          value_at s1 o = value_at base_store 0.
Proof.
  split; [exact base_store_ok|].
  destruct (wrapping_base_array_aliases_data base_store 0 base_store_ok)
    as (o & s1 & Hnew & _ & _ & _ & _ & Hv & _).
  exists o, s1. split; [exact Hnew | exact Hv].
Defined.

(** ** Writes *)

(** An item or slice write that NumPy accepts, whatever the listeners do:
    the write is performed, then the notification runs. *)
Lemma setitem_accepted s (o : loc) a d idx r start n vs ls :
  is_listener_array s o →
  objs s !! o = Some a → bufs s !! a_buf a = Some d →
  target a idx = Some (start, n) →
  broadcast (scalar_target a idx) r n = Values vs →
  listeners_of s o = Some ls →
  ∃ s2, __setitem__ o idx r s = (finish (notified ls).2, s2) ∧
        value_at s2 o = Some (NdValue (a_nd a) (splice start vs (window a d))) ∧
        new_events s s2 =
          map (λ l, Called l (NdValue (a_nd a) (splice start vs (window a d))))
              (notified ls).1 ∧
        extends (State (<[a_buf a := splice (a_off a + start) vs d]> (bufs s))
                   (lsts s) (objs s) (trace s)) s2.
Proof.
  intros Hwf Ha Hd Ht Hb Hls.
  pose proof (ndarray_setitem_spec _ _ _ _ _ _ _ _ _ Ha Hd Ht Hb) as Hin.
  destruct (mutate_spec s o (SetItem idx r) _ ls Hwf I Hin Hls)
    as (v & s2 & Hv & Hmut & Htr & Hext).
  assert (v = NdValue (a_nd a) (splice start vs (window a d))) as ->.
  { destruct Hwf as (a' & _ & _ & d' & Ha' & _ & _ & _ & Hd' & Hw & _).
    assert (a' = a) as -> by congruence. assert (d' = d) as -> by congruence.
    revert Hv. unfold value_at. cbn. rewrite Ha. cbn.
    rewrite list_lookup_insert_eq by (by eapply lookup_lt_Some). cbn.
    intros [= <-]. f_equal. apply window_splice; [done|].
    apply target_bounds in Ht. apply broadcast_length in Hb. lia. }
  exists s2. split; [done|]. split; [by eapply extends_value_at|].
  split; [by apply new_events_app | done].
Qed.

Lemma slice_bounds_full n : slice_bounds None None n = (0, n).
Proof. unfold slice_bounds. cbn. f_equal. lia. Qed.

(** X3.  The slice write [a[lo:hi] = z] of a number [z] that the elements
    can hold, on a one-dimensional array of 64-bit integers, never fails,
    whatever the bounds are: bounds outside the array are clipped.  The
    elements of the slice become [z], the others and the length of the
    array are kept, and the listeners are called with the result.  The full
    slice sets every element. *)
Theorem slice_write_with_scalar_never_fails s (o : loc) a d lo hi z ls :
  is_listener_array s o →
  objs s !! o = Some a → bufs s !! a_buf a = Some d → Forall int64 d →
  a_nd a = D1 → int64 z →
  listeners_of s o = Some ls → Forall returns ls →
  ∃ s2 ys,
    __setitem__ o (ISlice lo hi) (RScalar z) s = (Ok tt, s2) ∧
    value_at s2 o = Some (NdValue D1 ys) ∧ length ys = a_len a ∧
    ys = splice (slice_bounds lo hi (a_len a)).1
           (replicate (slice_bounds lo hi (a_len a)).2 z) (window a d) ∧
    (lo = None → hi = None → ys = replicate (a_len a) z) ∧
    new_events s s2 = map (λ l, Called l (NdValue D1 ys)) ls.
Proof.
  intros Hwf Ha Hd _ Hnd Hz Hls Hret.
  destruct (slice_bounds lo hi (a_len a)) as [start n] eqn:Hsb.
  assert (target a (ISlice lo hi) = Some (start, n)) as Ht
    by (unfold target; by rewrite Hnd, Hsb).
  assert (broadcast (scalar_target a (ISlice lo hi)) (RScalar z) n =
          Values (replicate n z)) as Hb
    by (unfold broadcast; by rewrite decide_True).
  destruct (setitem_accepted s o a d (ISlice lo hi) (RScalar z) start n
              (replicate n z) ls Hwf Ha Hd Ht Hb Hls)
    as (s2 & Hset & Hv & Hev & _).
  rewrite (notified_returns _ Hret) in Hset, Hev. cbn in Hset, Hev.
  rewrite Hnd in Hv, Hev.
  assert (length (window a d) = a_len a) as Hlen.
  { destruct Hwf as (a' & _ & _ & d' & Ha' & _ & _ & _ & Hd' & Hw & _).
    assert (a' = a) as -> by congruence. assert (d' = d) as -> by congruence.
    unfold window. rewrite length_take, length_drop. lia. }
  pose proof (slice_bounds_le _ _ _ _ _ Hsb) as Hle.
  exists s2, (splice start (replicate n z) (window a d)).
  split; [done|]. split; [done|].
  split; [rewrite length_splice; rewrite ?length_replicate; lia|].
  split; [done|]. split; [|done].
  intros -> ->. rewrite slice_bounds_full in Hsb. injection Hsb as <- <-.
  unfold splice. cbn. rewrite length_replicate.
  rewrite drop_ge by lia. by rewrite app_nil_r.
Qed.

Lemma slice_write_with_scalar_never_fails_witness :
  is_listener_array vector_store 1 ∧
  ∃ s2 ys,
    __setitem__ 1 (ISlice (Some (-1)%Z) (Some 100%Z)) (RScalar 7) vector_store =
      (Ok tt, s2) ∧
    value_at s2 1 = Some (NdValue D1 ys) ∧ length ys = 3 ∧
    new_events vector_store s2 = map (λ l, Called l (NdValue D1 ys)) [w0].
Proof.
  split; [exact vector_store_ok|].
  assert (int64 7) as H7 by (by vm_compute).
  destruct (slice_write_with_scalar_never_fails vector_store 1 vector_obj
              vector_data (Some (-1)%Z) (Some 100%Z) 7%Z [w0]
              vector_store_ok eq_refl eq_refl vector_data_int64 eq_refl H7
              eq_refl ltac:(repeat constructor))
    as (s2 & ys & Hset & Hv & Hlen & _ & _ & Hev).
  exists s2, ys. split; [exact Hset|]. split; [exact Hv|].
  split; [exact Hlen | exact Hev].
Defined.

Lemma notified_raises ls l rest :
  Forall returns ls → ob_call l = Raises →
  notified (ls ++ l :: rest) = (ls ++ [l], Some (ListenerError l)).
Proof.
  induction 1 as [|l0 ls Hl _ IH]; intros Hn; cbn.
  - by rewrite Hn.
  - by rewrite Hl, IH.
Qed.

(** X4.  A listener that raises ends the notification: the listeners
    before it and the listener itself have been called, in order, the
    listeners after it have not, and the exception leaves the method.  The
    write is not undone: the array holds the written contents. *)
Theorem raising_listener_aborts_notification
    s (o : loc) a d idx r start n vs before bad after :
  is_listener_array s o →
  objs s !! o = Some a → bufs s !! a_buf a = Some d →
  target a idx = Some (start, n) →
  broadcast (scalar_target a idx) r n = Values vs →
  listeners_of s o = Some (before ++ bad :: after) →
  Forall returns before → ob_call bad = Raises →
  ∃ s2, __setitem__ o idx r s = (Raise (ListenerError bad), s2) ∧
        value_at s2 o = Some (NdValue (a_nd a) (splice start vs (window a d))) ∧
        new_events s s2 =
          map (λ l, Called l (NdValue (a_nd a) (splice start vs (window a d))))
              (before ++ [bad]) ∧
        ∀ L, L ∉ before → L ≠ bad → calls_of L (new_events s s2) = [].
Proof.
  intros Hwf Ha Hd Ht Hb Hls Hret Hbad.
  destruct (setitem_accepted s o a d idx r start n vs _ Hwf Ha Hd Ht Hb Hls)
    as (s2 & Hset & Hv & Hev & _).
  rewrite (notified_raises _ _ _ Hret Hbad) in Hset, Hev. cbn in Hset, Hev.
  exists s2. split; [done|]. split; [done|]. split; [done|].
  intros L HL Hne. rewrite Hev. apply calls_of_absent.
  intros Hin. apply elem_of_app in Hin as [Hin|Hin]; [done|].
  apply list_elem_of_singleton in Hin. done.
Qed.

Lemma thrower_store_ok : is_listener_array thrower_store 1.
Proof.
  exists vector_obj, 1, [w0; thrower; w1], vector_data.
  repeat split; done.
Qed.

Lemma raising_listener_aborts_notification_witness :
  is_listener_array thrower_store 1 ∧
  listeners_of thrower_store 1 = Some ([w0] ++ thrower :: [w1]) ∧
  ∃ s2, __setitem__ 1 (IInt 0) (RScalar 12) thrower_store =
          (Raise (ListenerError thrower), s2) ∧
        value_at s2 1 = Some (NdValue D1 [12; 1; 11]%Z) ∧
        calls_of w1 (new_events thrower_store s2) = [].
Proof.
  split; [exact thrower_store_ok|]. split; [reflexivity|].
  destruct (raising_listener_aborts_notification thrower_store 1 vector_obj
              vector_data (IInt 0) (RScalar 12) 0 1 [12%Z] [w0] thrower [w1]
              thrower_store_ok eq_refl eq_refl eq_refl eq_refl eq_refl
              ltac:(repeat constructor) eq_refl)
    as (s2 & Hset & Hv & _ & Hnot).
  exists s2. split; [exact Hset|]. split; [exact Hv|].
  apply Hnot.
  - intros H. apply list_elem_of_singleton in H. discriminate.
  - discriminate.
Defined.

(** ** Views *)

(** The window of a part of a window. *)
Lemma window_of_part a d start n :
  start + n ≤ a_len a →
  take n (drop (a_off a + start) d) = take n (drop start (window a d)).
Proof.
  intros H. unfold window.
  rewrite drop_take_window by lia.
  rewrite take_take, Nat.min_l by lia.
  by rewrite drop_drop.
Qed.

(** X5.  A view returned by a read looks into the buffer of the array.
    A write through the view that NumPy accepts changes the array at the
    addressed positions shifted by the start of the view; the listeners,
    shared with the array, are called with the contents of the view, not
    with those of the array. *)
Theorem view_write_through s (a : loc) aa d idx start n ls :
  is_listener_array s a →
  objs s !! a = Some aa → bufs s !! a_buf aa = Some d →
  target aa idx = Some (start, n) → view_index aa idx →
  listeners_of s a = Some ls → Forall returns ls →
  ∃ v s1 part,
    __getitem__ a idx s = (Ok v, s1) ∧
    part = take n (drop start (window aa d)) ∧
    value_at s1 v = Some (NdValue (a_nd aa) part) ∧
    ∀ av idx2 r p k vs,
      objs s1 !! v = Some av → target av idx2 = Some (p, k) →
      broadcast (scalar_target av idx2) r k = Values vs →
      ∃ s3, __setitem__ v idx2 r s1 = (Ok tt, s3) ∧
            new_events s1 s3 =
              map (λ l, Called l (NdValue (a_nd aa) (splice p vs part))) ls ∧
            value_at s3 v = Some (NdValue (a_nd aa) (splice p vs part)) ∧
            value_at s3 a =
              Some (NdValue (a_nd aa) (splice (start + p) vs (window aa d))).
Proof.
  intros Hwf Ha Hd Ht Hv Hls Hret.
  destruct (view_shares _ _ _ _ _ _ Hwf Ha Ht Hv)
    as (v & s1 & Hget & Hext & _ & Hne & Hwfv & Hrv).
  pose proof Hget as Hget'.
  assert (a_cls aa = NdarrayListener) as Hc.
  { destruct Hwf as (a' & _ & _ & _ & Ha' & Hc & _). congruence. }
  rewrite (getitem_view_spec s a aa idx start n Ha Hc Ht Hv) in Hget'.
  injection Hget' as Hv1 Hs1.
  pose proof (target_bounds _ _ _ _ Ht) as Hb1.
  assert (a_off aa + a_len aa ≤ length d) as Hw.
  { destruct Hwf as (a' & _ & _ & d' & Ha' & _ & _ & _ & Hd' & Hw & _).
    assert (a' = aa) as -> by congruence. by assert (d' = d) as -> by congruence. }
  assert (listeners_of s1 v = Some ls) as Hlv.
  { destruct (is_listener_array_ref _ _ Hwf) as (l & ls' & Hr & Hl).
    assert (ls' = ls) as ->.
    { rewrite (listeners_of_ref _ _ _ _ Hr Hl) in Hls. congruence. }
    rewrite Hr in Hrv. apply (listeners_of_ref _ _ l); [done|].
    destruct Hext as (_ & (more & ->) & _). by apply lookup_app_l_Some. }
  assert (∃ av, objs s1 !! v = Some av ∧ a_buf av = a_buf aa ∧
                a_off av = a_off aa + start ∧ a_len av = n ∧
                a_nd av = a_nd aa) as (av & Hav & Hbuf & Hoff & Hlen & Hnd).
  { subst v s1. eexists. split; [apply lookup_snoc_new|]. done. }
  assert (bufs s1 = bufs s) as Hbs by (by subst s1).
  assert (window av d = take n (drop start (window aa d))) as Hwin.
  { unfold window at 1. rewrite Hoff, Hlen. by apply window_of_part. }
  exists v, s1, (take n (drop start (window aa d))).
  split; [done|]. split; [done|]. split.
  { unfold value_at. rewrite Hav. cbn. rewrite Hbuf, Hbs, Hd. cbn.
    by rewrite Hnd, Hwin. }
  intros av' idx2 r p k vs Hav' Ht2 Hbc.
  assert (av' = av) as -> by congruence.
  assert (bufs s1 !! a_buf av = Some d) as Hd1 by (by rewrite Hbuf, Hbs).
  destruct (setitem_accepted s1 v av d idx2 r p k vs ls Hwfv Hav Hd1 Ht2 Hbc Hlv)
    as (s3 & Hset & Hval & Hev & Hext3).
  rewrite (notified_returns _ Hret) in Hset, Hev. cbn in Hset, Hev.
  rewrite Hnd, Hwin in Hval, Hev.
  exists s3. split; [done|]. split; [done|]. split; [done|].
  eapply extends_value_at; [exact Hext3|].
  unfold value_at. cbn.
  rewrite (extends_objs _ _ _ _ Hext Ha). cbn.
  rewrite Hbuf. 
  rewrite list_lookup_insert_eq
    by (rewrite Hbs; by eapply lookup_lt_Some). cbn.
  do 2 f_equal. rewrite Hoff, <- Nat.add_assoc.
  apply window_splice; [done|].
  apply target_bounds in Ht2. apply broadcast_length in Hbc. lia.
Qed.

Lemma view_write_through_witness :
  is_listener_array vector_store 1 ∧
  target vector_obj (ISlice (Some 1%Z) None) = Some (1, 2) ∧
  ∃ v s1, __getitem__ 1 (ISlice (Some 1%Z) None) vector_store = (Ok v, s1) ∧
          value_at s1 v = Some (NdValue D1 [1; 11]%Z).
Proof.
  split; [exact vector_store_ok|]. split; [reflexivity|].
  destruct (view_write_through vector_store 1 vector_obj vector_data
              (ISlice (Some 1%Z) None) 1 2 [w0]
              vector_store_ok eq_refl eq_refl eq_refl I eq_refl
              ltac:(repeat constructor))
    as (v & s1 & part & Hget & Hpart & Hv & _).
  exists v, s1. split; [exact Hget|]. rewrite Hv, Hpart. reflexivity.
Defined.

(** ** Replacing the list of listeners *)

Lemma assign_empty_listeners_spec s (a : loc) aa :
  objs s !! a = Some aa → a_cls aa = NdarrayListener →
  assign_empty_listeners a s =
    (Ok tt,
     State (bufs s) (lsts s ++ [[]])
       (<[a := set_dict (<["_listeners"%string := PList (length (lsts s))]>
                           (a_dict aa)) aa]> (objs s))
       (trace s)).
Proof.
  intros Ha Hc. unfold assign_empty_listeners, bind, new_list.
  by erewrite setattr_listeners_spec.
Qed.

(** X6.  Assigning a new empty list to [_listeners] of an array calls
    nothing and keeps the data.  From then on the array is detached: its
    mutations call nobody, whoever was subscribed, while every other array
    keeps its listeners, and a listener subscribed later through another
    array does not reach it. *)
Theorem reassigning_listeners_detaches s (a y : loc) ls :
  is_listener_array s a → is_listener_array s y → y ≠ a →
  listeners_of s y = Some ls →
  ∃ s1, assign_empty_listeners a s = (Ok tt, s1) ∧ new_events s s1 = [] ∧
        is_listener_array s1 a ∧ listeners_of s1 a = Some [] ∧
        value_at s1 a = value_at s a ∧
        is_listener_array s1 y ∧ listeners_of s1 y = Some ls ∧
        (∀ m s2, on_data m → inherited a m s1 = (Ok tt, s2) →
           ∃ s3, mutate a m s1 = (Ok tt, s3) ∧ new_events s1 s3 = []) ∧
        (∀ L, ∃ s2, talk_to y L s1 = (Ok tt, s2) ∧
                    listeners_of s2 y = Some (ls ++ [L]) ∧
                    listeners_of s2 a = Some []).
Proof.
  intros Hwf Hy Hne Hls.
  destruct Hwf as (aa & l & lsa & d & Ha & Hc & Hl & Hlsa & Hd & Hw & H0).
  eexists. split; [by eapply assign_empty_listeners_spec|].
  set (s1 := State _ _ _ _).
  pose proof (lookup_lt_Some _ _ _ Ha) as Hlt.
  assert (objs s1 !! a =
          Some (set_dict (<["_listeners"%string := PList (length (lsts s))]>
                            (a_dict aa)) aa)) as Ha1
    by (by apply list_lookup_insert_eq).
  assert (is_listener_array s1 a) as Hwf1.
  { exists (set_dict (<["_listeners"%string := PList (length (lsts s))]>
                       (a_dict aa)) aa), (length (lsts s)), [], d.
    split; [done|]. split; [done|]. split; [apply lookup_insert_eq|].
    split; [apply lookup_snoc_new|]. done. }
  assert (listeners_ref s1 a = Some (length (lsts s))) as Hr1.
  { unfold listeners_ref. rewrite Ha1. cbn. by rewrite lookup_insert_eq. }
  assert (listeners_of s1 a = Some []) as Hls1.
  { apply (listeners_of_ref _ _ _ _ Hr1). apply lookup_snoc_new. }
  assert (is_listener_array s1 y) as Hy1.
  { destruct Hy as (ay & ly & lsy & dy & Hay & Hrest).
    exists ay, ly, lsy, dy. subst s1. cbn.
    rewrite list_lookup_insert_ne by done. split; [done|].
    destruct Hrest as (Hcy & Hdy & Hlsy & Hrest).
    split; [done|]. split; [done|].
    split; [by apply lookup_app_l_Some | done]. }
  destruct (is_listener_array_ref _ _ Hy) as (ly & lsy & Hry & Hly).
  assert (lsy = ls) as ->.
  { rewrite (listeners_of_ref _ _ _ _ Hry Hly) in Hls. congruence. }
  assert (listeners_ref s1 y = Some ly) as Hry1.
  { revert Hry. unfold listeners_ref. subst s1. cbn.
    by rewrite list_lookup_insert_ne by done. }
  assert (lsts s1 !! ly = Some ls) as Hly1
    by (by apply lookup_app_l_Some).
  split; [by apply new_events_same|]. split; [done|]. split; [done|].
  split.
  { unfold value_at. rewrite Ha1, Ha. reflexivity. }
  split; [done|]. split; [by eapply listeners_of_ref|]. split.
  - intros m s2 Hm Hin.
    destruct (mutate_spec _ _ _ _ _ Hwf1 Hm Hin Hls1)
      as (v & s3 & _ & Hmut & Htr & _).
    exists s3. split; [done|]. apply new_events_same.
    cbn in Htr. by rewrite app_nil_r in Htr.
  - intros L. eexists. split; [by apply talk_to_spec|].
    split; [by eapply update_listeners_of_same|].
    rewrite <- Hls1. eapply update_listeners_of_other; [exact Hr1|].
    apply lookup_lt_Some in Hly. lia.
Qed.

Lemma view_store_ok :
  is_listener_array view_store 1 ∧ is_listener_array view_store 2.
Proof.
  split.
  - exists vector_obj, 1, [w0], vector_data. repeat split; done.
  - exists vector_obj, 1, [w0], vector_data. repeat split; done.
Qed.

Lemma reassigning_listeners_detaches_witness :
  is_listener_array view_store 1 ∧ is_listener_array view_store 2 ∧
  listeners_of view_store 2 = Some [w0] ∧
  ∃ s1, assign_empty_listeners 1 view_store = (Ok tt, s1) ∧
        listeners_of s1 1 = Some [] ∧ listeners_of s1 2 = Some [w0].
Proof.
  split; [exact (proj1 view_store_ok)|].
  split; [exact (proj2 view_store_ok)|]. split; [reflexivity|].
  destruct (reassigning_listeners_detaches view_store 1 2 [w0]
              (proj1 view_store_ok) (proj2 view_store_ok)
              ltac:(discriminate) eq_refl)
    as (s1 & Hset & _ & _ & Hl1 & _ & _ & Hl2 & _).
  exists s1. split; [exact Hset|]. split; [exact Hl1 | exact Hl2].
Defined.

(** ** Two ways to write one element *)

(** X7.  On a one-dimensional array, [itemset] with a position and an item
    write with an integer index and a scalar are the same operation: same
    result or exception, same store, same calls.  On an array of exactly
    one element, [itemset] with the value alone is the write of the scalar
    to the whole array. *)
Theorem itemset_agrees_with_setitem s (o : loc) a :
  objs s !! o = Some a →
  (a_nd a = D1 →
     ∀ i v, itemset o (ItemsetAt i v) s = __setitem__ o (IInt i) (RScalar v) s) ∧
  (a_len a = 1 →
     ∀ v, itemset o (ItemsetValue v) s = __setitem__ o IEllipsis (RScalar v) s).
Proof.
  intros Ho. split.
  - intros Hnd i v.
    unfold itemset, __setitem__, bind.
    assert (ndarray_itemset o (ItemsetAt i v) s =
            ndarray_setitem o (IInt i) (RScalar v) s) as ->; [|done].
    unfold ndarray_itemset, ndarray_setitem, bind, deref_obj, target.
    rewrite Ho, Hnd. destruct (adjust_index i (a_len a)); [|done].
    unfold broadcast. by destruct (decide (int64 v)).
  - intros Hlen v.
    unfold itemset, __setitem__, bind.
    assert (ndarray_itemset o (ItemsetValue v) s =
            ndarray_setitem o IEllipsis (RScalar v) s) as ->; [|done].
    unfold ndarray_itemset, ndarray_setitem, bind, deref_obj, target.
    rewrite Ho, Hlen. rewrite decide_True by done. unfold broadcast.
    destruct (decide (int64 v)); [|by destruct (a_nd a)].
    rewrite Nat.add_0_r. by destruct (a_nd a).
Qed.

Lemma itemset_agrees_with_setitem_witness :
  objs vector_store !! 1 = Some vector_obj ∧
  itemset 1 (ItemsetAt (-1) 9) vector_store =
    __setitem__ 1 (IInt (-1)) (RScalar 9) vector_store.
Proof.
  split; [reflexivity|].
  exact (proj1 (itemset_agrees_with_setitem vector_store 1 vector_obj eq_refl)
           eq_refl (-1)%Z 9%Z).
Defined.

(** ** Reads *)

Lemma ndarray_getitem_scalar_spec s (x : loc) aa d idx start n :
  objs s !! x = Some aa → bufs s !! a_buf aa = Some d →
  a_off aa + a_len aa ≤ length d → (a_nd aa = D0 → a_len aa = 1) →
  target aa idx = Some (start, n) → ¬ view_index aa idx →
  ∃ z, ndarray_getitem x idx s = (Ok (ItemScalar z), s).
Proof.
  intros Hx Hd Hw H0 Ht Hnv.
  assert (start < a_len aa) as Hlt.
  { revert Ht Hnv. unfold target, view_index.
    destruct idx as [i|lo hi| |], (a_nd aa) eqn:Hnd; try done.
    1: { destruct (adjust_index i (a_len aa)) as [k|] eqn:Hk; [|done].
         cbn. intros [= <- <-] _. by apply adjust_index_lt in Hk. }
    all: first [ intros _ Hn; exfalso; apply Hn; exact I
               | intros [= <- <-] _; rewrite H0 by done; lia ]. }
  destruct (lookup_lt_is_Some_2 d (a_off aa + start)) as [z Hz]; [lia|].
  exists z. unfold ndarray_getitem, bind at 1, deref_obj. rewrite Hx, Ht.
  assert ((let* d := deref_buf (a_buf aa) in
           match d !! (a_off aa + start) with
           | Some z => ret (ItemScalar z)
           | None => raise BadRef
           end) s = (Ok (ItemScalar z), s)) as Hs.
  { unfold bind, deref_buf. by rewrite Hd, Hz. }
  revert Hnv. unfold view_index.
  destruct idx, (a_nd aa); intros Hnv; first [exact Hs | by destruct Hnv].
Qed.

Lemma getitem_cases s (x : loc) aa idx :
  is_listener_array s x → objs s !! x = Some aa →
  (target aa idx = None ∧ __getitem__ x idx s = (Raise IndexError, s)) ∨
  (is_Some (target aa idx) ∧
   ∃ v s1, __getitem__ x idx s = (Ok v, s1) ∧ v ≠ x ∧ extends s s1 ∧
           trace s1 = trace s ∧ is_listener_array s1 v ∧
           listeners_of s1 v = listeners_of s x).
Proof.
  intros Hwf Hx.
  destruct (target aa idx) as [[start n]|] eqn:Ht.
  - right. split; [by eexists|].
    destruct (is_listener_array_ref _ _ Hwf) as (l & ls & Hr & Hl).
    pose proof (listeners_of_ref _ _ _ _ Hr Hl) as Hls.
    assert (Decision (view_index aa idx)) as [Hv|Hnv].
    { unfold view_index.
      destruct idx, (a_nd aa); first [left; exact I | right; intros []]. }
    + destruct (view_shares _ _ _ _ _ _ Hwf Hx Ht Hv)
        as (v & s1 & Hget & Hext & Htr & Hne & Hwfv & Hrv).
      exists v, s1. do 5 (split; [done|]). rewrite Hls.
      rewrite Hr in Hrv. apply (listeners_of_ref _ _ _ _ Hrv).
      destruct Hext as (_ & (more & ->) & _). by apply lookup_app_l_Some.
    + destruct Hwf as (a' & l' & ls' & d & Ha' & Hc & Hd' & Hl' & Hd & Hw & H0).
      assert (a' = aa) as -> by congruence.
      destruct (ndarray_getitem_scalar_spec s x aa d idx start n Hx Hd Hw H0 Ht Hnv)
        as [z Hget].
      assert (is_listener_array s x) as Hwf
        by (exists aa, l', ls', d; done).
      destruct (scalar_extraction _ _ _ _ _ _ Hwf Hget Hls)
        as (v & s1 & Hgi & Hext & Htr & Hne & Hwfv & _ & Hlv & _).
      exists v, s1. do 5 (split; [done|]). by rewrite Hls.
  - left. split; [done|].
    unfold __getitem__, bind at 1, ndarray_getitem, bind at 1, deref_obj.
    by rewrite Hx, Ht.
Qed.

(** X8.  A read on an array in good standing has two outcomes only.  When
    NumPy does not accept the index (out of range, too many indices) the
    read raises [IndexError] and the store is untouched.  Otherwise it
    returns an instance other than the array, in good standing, whose
    listeners are the listeners of the array, entry by entry; nothing that
    existed is changed and nothing is called. *)
Theorem getitem_returns_instance_or_index_error s (x : loc) aa idx :
  is_listener_array s x → objs s !! x = Some aa →
  (target aa idx = None ∧ __getitem__ x idx s = (Raise IndexError, s)) ∨
  (is_Some (target aa idx) ∧
   ∃ v s1, __getitem__ x idx s = (Ok v, s1) ∧ v ≠ x ∧ extends s s1 ∧
           trace s1 = trace s ∧ is_listener_array s1 v ∧
           listeners_of s1 v = listeners_of s x).
Proof. apply getitem_cases. Qed.

Lemma getitem_returns_instance_or_index_error_witness :
  is_listener_array vector_store 1 ∧
  __getitem__ 1 (IInt 3) vector_store = (Raise IndexError, vector_store).
Proof.
  split; [exact vector_store_ok|].
  destruct (getitem_returns_instance_or_index_error vector_store 1 vector_obj
              (IInt 3) vector_store_ok eq_refl)
    as [[_ Hraise]|[[p Hsome] _]].
  - exact Hraise.
  - discriminate Hsome.
Defined.

(** ** Good standing is an invariant *)

(** A successful inherited write through an array in good standing leaves
    every array in good standing, also the views of the same buffer. *)
Lemma inherited_keeps_all s (x y : loc) m s1 :
  is_listener_array s x → is_listener_array s y → on_data m →
  inherited x m s = (Ok tt, s1) → is_listener_array s1 y.
Proof.
  intros (ax & lx & lsx & dx & Hax & Hcx & Hlx & Hlsx & Hdx & Hwx & H0x)
         (ay & ly & lsy & dy & Hay & Hcy & Hly & Hlsy & Hdy & Hwy & H0y)
         Hm Hin.
  destruct (inherited_ok_inv _ _ _ _ Hin) as (a' & Ha' & Hcase).
  assert (a' = ax) as -> by congruence.
  destruct Hcase as [(d' & p & vs & Hd' & Hp & ->)|(name & v & -> & _ & ->)].
  - assert (d' = dx) as -> by congruence.
    destruct (decide (a_buf ay = a_buf ax)) as [Heq|Hne].
    + assert (dy = dx) as -> by congruence.
      exists ay, ly, lsy, (splice (a_off ax + p) vs dx). cbn.
      rewrite Heq, list_lookup_insert_eq by (by eapply lookup_lt_Some).
      rewrite length_splice by lia. done.
    + exists ay, ly, lsy, dy. cbn. by rewrite list_lookup_insert_ne.
  - cbn in Hm. destruct (decide (y = x)) as [->|Hne].
    + assert (ay = ax) as -> by congruence.
      exists (set_dict (<[name:=v]> (a_dict ax)) ax), ly, lsy, dy. cbn.
      rewrite list_lookup_insert_eq by (by eapply lookup_lt_Some).
      by rewrite lookup_insert_ne.
    + exists ay, ly, lsy, dy. cbn. by rewrite list_lookup_insert_ne.
Qed.

(** X9.  Good standing is kept by the methods of the class other than an
    assignment to [_listeners], whatever their outcome is (also when a
    listener raises or is not callable): after a subscription, an item
    write, [itemset], an assignment to an attribute other than
    [_listeners] that the model covers, a read, a copy or a construction
    from an array, every array that was in good standing still is, and the
    instance a read, a copy or the constructor returns is in good
    standing.  (An assignment to [_listeners] can end good standing, see
    X10.) *)
Theorem good_standing_is_invariant s (x y : loc) :
  is_listener_array s x → is_listener_array s y →
  (∀ me, is_listener_array (talk_to x me s).2 y) ∧
  (∀ m, on_data m → modelled (mutate x m s).1 →
        is_listener_array (mutate x m s).2 y) ∧
  (∀ idx, is_listener_array (__getitem__ x idx s).2 y ∧
          ∀ v s1, __getitem__ x idx s = (Ok v, s1) → is_listener_array s1 v) ∧
  (is_listener_array (copy x s).2 y ∧
   ∀ v s1, copy x s = (Ok v, s1) → is_listener_array s1 v) ∧
  (is_listener_array (__new__ (InArr x) s).2 y ∧
   ∀ v s1, __new__ (InArr x) s = (Ok v, s1) → is_listener_array s1 v).
Proof.
  intros Hx Hy. split; [|split; [|split; [|split]]].
  - intros me. destruct (is_listener_array_ref _ _ Hx) as (l & ls & Hr & Hl).
    rewrite (talk_to_spec _ _ _ _ me Hr Hl). cbn.
    by eapply update_is_listener_array.
  - intros m Hm.
    destruct (inherited x m s) as [[[]|e|] s1] eqn:Hin.
    + intros _. destruct (is_listener_array_listeners _ _ Hx) as [ls Hls].
      destruct (mutate_spec _ _ _ _ _ Hx Hm Hin Hls)
        as (v & s2 & _ & Hmut & _ & Hext).
      rewrite Hmut. cbn. eapply extends_is_listener_array; [done|].
      exact (inherited_keeps_all s x y m s1 Hx Hy Hm Hin).
    + by rewrite (mutate_raise _ _ _ _ _ Hin).
    + by rewrite (mutate_unmodelled _ _ _ _ Hin).
  - intros idx.
    destruct Hx as (aa & l & ls & d & Ha & Hrest).
    assert (is_listener_array s x) as Hx by (by exists aa, l, ls, d).
    destruct (getitem_cases s x aa idx Hx Ha)
      as [[_ Hraise]|[_ (v & s1 & Hget & _ & Hext & _ & Hwfv & _)]].
    + rewrite Hraise. split; [done|]. by intros v s1.
    + rewrite Hget. split; [by eapply extends_is_listener_array|].
      by intros v' s1' [= <- <-].
  - destruct (copy_shares _ _ Hx) as (b & s1 & Hcp & Hext & _ & _ & Hwfb & _).
    rewrite Hcp. split; [by eapply extends_is_listener_array|].
    by intros v' s1' [= <- <-].
  - destruct (new_array_shares _ _ Hx) as (o & s1 & Hnew & Hext & _ & _ & Hwfo & _).
    rewrite Hnew. split; [by eapply extends_is_listener_array|].
    by intros v' s1' [= <- <-].
Qed.

Lemma good_standing_is_invariant_witness :
  is_listener_array thrower_store 1 ∧
  is_listener_array (mutate 1 (SetItem (IInt 0) (RScalar 12)) thrower_store).2 1.
Proof.
  split; [exact thrower_store_ok|].
  exact (proj1 (proj2 (good_standing_is_invariant thrower_store 1 1
                         thrower_store_ok thrower_store_ok))
           (SetItem (IInt 0) (RScalar 12)) I I).
Defined.

(** ** More on the list of listeners *)

(** X10.  [__setattr__] does not check what is assigned to [_listeners].
    After [None] or a number has been assigned (silently), a subscription
    raises [AttributeError] and changes nothing, and every item or slice
    write that NumPy accepts is performed and then raises [TypeError]
    without calling anything. *)
Theorem non_list_listeners_break_the_array s (a : loc) aa d v :
  is_listener_array s a →
  objs s !! a = Some aa → bufs s !! a_buf aa = Some d →
  v = PNone ∨ (∃ z, v = PNum z) →
  ∃ s1, __setattr__ a "_listeners" v s = (Ok tt, s1) ∧
        new_events s s1 = [] ∧ value_at s1 a = value_at s a ∧
        (∀ me, talk_to a me s1 = (Raise AttributeError, s1)) ∧
        ∀ idx r start n vs,
          target aa idx = Some (start, n) →
          broadcast (scalar_target aa idx) r n = Values vs →
          ∃ s2, __setitem__ a idx r s1 = (Raise TypeError, s2) ∧
                new_events s1 s2 = [] ∧
                value_at s2 a =
                  Some (NdValue (a_nd aa) (splice start vs (window aa d))).
Proof.
  intros Hwf Ha Hd Hv.
  destruct Hwf as (a' & l & ls & d' & Ha' & Hc & Hl & Hls & Hd' & Hw & H0).
  assert (a' = aa) as -> by congruence. assert (d' = d) as -> by congruence.
  eexists. split; [by eapply setattr_listeners_spec|].
  set (a1 := set_dict _ aa). set (s1 := State _ _ _ _).
  assert (objs s1 !! a = Some a1) as Ha1
    by (apply list_lookup_insert_eq; by eapply lookup_lt_Some).
  assert (a_dict a1 !! "_listeners"%string = Some v) as Hd1
    by apply lookup_insert_eq.
  split; [by apply new_events_same|]. split.
  { unfold value_at. rewrite Ha1, Ha. reflexivity. }
  split.
  - intros me. unfold talk_to, bind, getattr, bind, deref_obj.
    rewrite Ha1, Hd1. unfold ret. by destruct Hv as [->|[z ->]].
  - intros idx r start n vs Ht Hb.
    assert (target a1 idx = Some (start, n)) as Ht1 by exact Ht.
    assert (bufs s1 !! a_buf a1 = Some d) as Hb1 by exact Hd.
    eexists. split.
    + unfold __setitem__, bind at 1.
      rewrite (ndarray_setitem_spec s1 a a1 d idx r start n vs Ha1 Hb1 Ht1 Hb).
      unfold __notify, bind at 1, iter_listeners, bind at 1, getattr,
        bind at 1, deref_obj.
      cbn [objs bufs lsts trace]. rewrite Ha1, Hd1. unfold ret.
      by destruct Hv as [->|[z ->]].
    + split; [by apply new_events_same|].
      unfold value_at. cbn [objs bufs lsts trace]. rewrite Ha1. cbn.
      rewrite list_lookup_insert_eq by (by eapply lookup_lt_Some). cbn.
      do 2 f_equal. apply (window_splice aa); [done|].
      apply target_bounds in Ht. apply broadcast_length in Hb. lia.
Qed.

Lemma non_list_listeners_break_the_array_witness :
  is_listener_array vector_store 1 ∧
  ∃ s1, __setattr__ 1 "_listeners" PNone vector_store = (Ok tt, s1) ∧
        talk_to 1 w1 s1 = (Raise AttributeError, s1).
Proof.
  split; [exact vector_store_ok|].
  destruct (non_list_listeners_break_the_array vector_store 1 vector_obj
              vector_data PNone vector_store_ok eq_refl eq_refl
              (or_introl eq_refl))
    as (s1 & Hset & _ & _ & Htalk & _).
  exists s1. split; [exact Hset | exact (Htalk w1)].
Defined.

(** X11.  The listeners of an extracted scalar are those the array had at
    the extraction: a listener subscribed on the array afterwards is
    called by a mutation of the array, after the earlier ones, but not by
    a mutation of the extracted scalar. *)
Theorem extracted_scalar_misses_later_subscriptions s (a : loc) idx z s' ls L :
  is_listener_array s a →
  ndarray_getitem a idx s = (Ok (ItemScalar z), s') →
  listeners_of s a = Some ls → Forall returns (ls ++ [L]) → L ∉ ls →
  ∃ x s1 s2,
    __getitem__ a idx s = (Ok x, s1) ∧ talk_to a L s1 = (Ok tt, s2) ∧
    listeners_of s2 a = Some (ls ++ [L]) ∧ listeners_of s2 x = Some ls ∧
    (∀ m s3, on_data m → inherited x m s2 = (Ok tt, s3) →
       ∃ v s4, mutate x m s2 = (Ok tt, s4) ∧
               new_events s2 s4 = map (λ l, Called l v) ls ∧
               calls_of L (new_events s2 s4) = []) ∧
    (∀ m s3, on_data m → inherited a m s2 = (Ok tt, s3) →
       ∃ v s4, mutate a m s2 = (Ok tt, s4) ∧
               new_events s2 s4 = map (λ l, Called l v) (ls ++ [L])).
Proof.
  intros Hwf Hget Hls Hret Hnot.
  destruct (scalar_extraction _ _ _ _ _ _ Hwf Hget Hls)
    as (x & s1 & Hgi & Hext & _ & Hne & Hwfx & Hrx & Hlx & _).
  destruct (is_listener_array_ref _ _ Hwf) as (l & ls' & Hr & Hl).
  assert (ls' = ls) as ->.
  { rewrite (listeners_of_ref _ _ _ _ Hr Hl) in Hls. congruence. }
  pose proof (extends_listeners_ref _ _ _ _ Hext Hr) as Hr1.
  pose proof (extends_is_listener_array _ _ _ Hext Hwf) as Hwf1.
  assert (lsts s1 !! l = Some ls) as Hl1.
  { destruct Hext as (_ & (more & ->) & _). by apply lookup_app_l_Some. }
  assert (S (length (lsts s)) ≠ l) as Hll
    by (apply lookup_lt_Some in Hl; lia).
  exists x, s1. eexists. split; [done|].
  split; [by apply talk_to_spec|].
  set (s2 := State _ _ _ _).
  assert (listeners_of s2 a = Some (ls ++ [L])) as Hla2
    by (by eapply update_listeners_of_same).
  assert (listeners_of s2 x = Some ls) as Hlx2.
  { rewrite <- Hlx. by eapply update_listeners_of_other. }
  assert (is_listener_array s2 a) as Hwfa2
    by (by eapply update_is_listener_array).
  assert (is_listener_array s2 x) as Hwfx2
    by (by eapply update_is_listener_array).
  split; [done|]. split; [done|]. split.
  - intros m s3 Hm Hin.
    destruct (mutate_spec _ _ _ _ _ Hwfx2 Hm Hin Hlx2)
      as (v & s4 & _ & Hmut & Htr & _).
    apply Forall_app in Hret as [Hret _].
    rewrite (notified_returns _ Hret) in Hmut, Htr. cbn in Hmut, Htr.
    exists v, s4. split; [done|]. rewrite (new_events_app s2 _ _ Htr).
    split; [done|]. by apply calls_of_absent.
  - intros m s3 Hm Hin.
    destruct (mutate_spec _ _ _ _ _ Hwfa2 Hm Hin Hla2)
      as (v & s4 & _ & Hmut & Htr & _).
    rewrite (notified_returns _ Hret) in Hmut, Htr. cbn in Hmut, Htr.
    exists v, s4. split; [done|]. exact (new_events_app s2 _ _ Htr).
Qed.

Lemma extracted_scalar_misses_later_subscriptions_witness :
  is_listener_array vector_store 1 ∧
  ndarray_getitem 1 (IInt 0) vector_store = (Ok (ItemScalar (-5)), vector_store) ∧
  ∃ x s1 s2,
    __getitem__ 1 (IInt 0) vector_store = (Ok x, s1) ∧
    talk_to 1 w1 s1 = (Ok tt, s2) ∧
    listeners_of s2 1 = Some ([w0] ++ [w1]) ∧ listeners_of s2 x = Some [w0].
Proof.
  split; [exact vector_store_ok|]. split; [reflexivity|].
  assert (w1 ∉ [w0]) as Hnot.
  { intros H. apply list_elem_of_singleton in H. discriminate. }
  destruct (extracted_scalar_misses_later_subscriptions vector_store 1 (IInt 0)
              (-5) vector_store [w0] w1 vector_store_ok eq_refl eq_refl
              ltac:(repeat constructor) Hnot)
    as (x & s1 & s2 & Hget & Htalk & Hla & Hlx & _).
  exists x, s1, s2. split; [exact Hget|]. split; [exact Htalk|].
  split; [exact Hla | exact Hlx].
Defined.

(** X12.  The constructor applied to an instance makes no copy of the
    data either: the new instance looks at the window of its source and
    holds the list of its source.  After every mutating method applied to
    the new instance the listeners of the source have been called with the
    new contents, and the source holds these contents. *)
Theorem rewrapping_an_instance_aliases_data s (a : loc) ls :
  is_listener_array s a → listeners_of s a = Some ls → Forall returns ls →
  ∃ o s1, __new__ (InArr a) s = (Ok o, s1) ∧ o ≠ a ∧
          bufs s1 = bufs s ∧ value_at s1 o = value_at s a ∧
          ∀ m s2, on_data m → inherited o m s1 = (Ok tt, s2) →
            ∃ v s3, mutate o m s1 = (Ok tt, s3) ∧
                    new_events s1 s3 = map (λ l, Called l v) ls ∧
                    value_at s3 o = Some v ∧ value_at s3 a = Some v.
Proof.
  intros Hwf Hls Hret.
  destruct (new_array_shares _ _ Hwf)
    as (o & s1 & Hnew & Hext & _ & Hne & Hwfo & Hro & Hvo).
  destruct Hwf as (aa & l & ls' & d & Ha & Hc & Hl & Hlsl & Hd & Hw & H0).
  pose proof Hnew as Hnew'.
  rewrite (new_array_spec s a aa (PList l) Ha Hc Hl) in Hnew'.
  injection Hnew' as Ho Hs1.
  assert (objs s1 !! o = Some (Arr NdarrayListener (a_buf aa) (a_off aa)
            (a_len aa) (a_nd aa) {["_listeners"%string := PList l]})) as Hoo.
  { subst o s1. apply lookup_snoc2_new. }
  pose proof (extends_objs _ _ _ _ Hext Ha) as Ha1.
  assert (listeners_of s1 o = Some ls) as Hlo.
  { assert (listeners_ref s a = Some l) as Hr
      by (unfold listeners_ref; rewrite Ha; cbn; by rewrite Hl).
    rewrite Hr in Hro. apply (listeners_of_ref _ _ _ _ Hro).
    assert (ls' = ls) as ->.
    { rewrite (listeners_of_ref _ _ _ _ Hr Hlsl) in Hls. congruence. }
    destruct Hext as (_ & (more & ->) & _). by apply lookup_app_l_Some. }
  exists o, s1. split; [done|]. split; [done|].
  split; [by subst s1|]. split; [done|].
  intros m s2 Hm Hin.
  destruct (alias_after_mutation s1 o a _ _ m s2 ls Hwfo Hoo Ha1
              ltac:(done) Hm Hin Hlo) as (v & s3 & Hmut & Hev & Hv1 & Hv2).
  rewrite (notified_returns _ Hret) in Hmut, Hev. cbn in Hmut, Hev.
  by exists v, s3.
Qed.

Lemma rewrapping_an_instance_aliases_data_witness :
  is_listener_array vector_store 1 ∧
  ∃ o s1, __new__ (InArr 1) vector_store = (Ok o, s1) ∧ o ≠ 1 ∧
          value_at s1 o = value_at vector_store 1.
Proof.
  split; [exact vector_store_ok|].
  destruct (rewrapping_an_instance_aliases_data vector_store 1 [w0]
              vector_store_ok eq_refl ltac:(repeat constructor))
    as (o & s1 & Hnew & Hne & _ & Hv & _).
  exists o, s1. split; [exact Hnew|]. split; [exact Hne | exact Hv].
Defined.
